(** * AutoRSS: the relay pipeline of [main.py]

    A shallow embedding of [main.py] (feed -> dedupe -> Gemini summary ->
    Twitter thread -> processed_posts.txt) and the properties of its retry,
    publishing and commit logic.

    Modelling conventions.
    - A Python [str] is a Rocq [string], one [ascii] per character, so the
      model covers text whose characters lie below U+0100.
    - The external services (Gemini backend, Twitter client, [json.loads],
      the feed parser) are oracles: section variables in the general
      development, scripted functions in the concrete runs.
    - Effects are explicit: every function returns the events it performs,
      in order; [world] pairs the content of processed_posts.txt with the
      event log of the run.
    - [print] calls are logging only and are left out. *)

From Stdlib Require Import ZArith Ascii Lia.
From Stdlib Require String.
From stdpp Require Import base gmap strings list.

(** ** Characters and strings as Python sees them *)

Definition LF : ascii := "010"%char.
Definition CR : ascii := "013"%char.
Definition DQ : ascii := "034"%char.
Definition LBRACE : ascii := "{"%char.
Definition RBRACE : ascii := "}"%char.

(** [s.find(c)] for a one-character needle: the first index, or -1. *)
Fixpoint find_from (c : ascii) (s : string) (i : Z) : Z :=
  match s with
  | EmptyString => (-1)%Z
  | String a r => if Ascii.eqb a c then i else find_from c r (i + 1)%Z
  end.

Definition find (s : string) (c : ascii) : Z := find_from c s 0.

(** [s.rfind(c)]: the last index, or -1. *)
Fixpoint rfind_from (c : ascii) (s : string) (i : Z) : Z :=
  match s with
  | EmptyString => (-1)%Z
  | String a r =>
      let k := rfind_from c r (i + 1)%Z in
      if (k =? -1)%Z then (if Ascii.eqb a c then i else (-1)%Z) else k
  end.

Definition rfind (s : string) (c : ascii) : Z := rfind_from c s 0.

(** [s[lo:hi]] with Python's treatment of negative and out-of-range bounds. *)
Definition slice_bound (n i : Z) : Z :=
  if (i <? 0)%Z then Z.max 0 (i + n) else Z.min i n.

Definition slice (s : string) (lo hi : Z) : string :=
  let n := Z.of_nat (String.length s) in
  let a := slice_bound n lo in
  let b := slice_bound n hi in
  String.substring (Z.to_nat a) (Z.to_nat (b - a)) s.

(** [str.isspace] on one character (code points below U+0100). *)
Definition isspace (c : ascii) : bool :=
  let n := nat_of_ascii c in
  ((9 <=? n) && (n <=? 13)) || ((28 <=? n) && (n <=? 32))
  || (n =? 133) || (n =? 160).

Fixpoint lstrip (s : string) : string :=
  match s with
  | EmptyString => EmptyString
  | String a r => if isspace a then lstrip r else s
  end.

Fixpoint rstrip (s : string) : string :=
  match s with
  | EmptyString => EmptyString
  | String a r =>
      match rstrip r with
      | EmptyString => if isspace a then EmptyString else String a EmptyString
      | r' => String a r'
      end
  end.

(** [s.strip()] *)
Definition strip (s : string) : string := lstrip (rstrip s).

(** [c in s] for a one-character needle. *)
Fixpoint contains (s : string) (c : ascii) : bool :=
  match s with
  | EmptyString => false
  | String a r => Ascii.eqb a c || contains r c
  end.

(** A text made of complete lines: empty, or ending in LF. *)
Fixpoint newline_terminated (s : string) : bool :=
  match s with
  | EmptyString => true
  | String c EmptyString => Ascii.eqb c LF
  | String _ r => newline_terminated r
  end.

(** Truthiness of a [str] and of an optional [str] ([None] or empty is falsy). *)
Definition str_truthy (s : string) : bool :=
  match s with EmptyString => false | String _ _ => true end.

Definition opt_truthy (o : option string) : bool :=
  match o with Some s => str_truthy s | None => false end.

(** ** JSON values, as [json.loads] returns them

    [JNull] is Python's [None]; of a float the program can observe only
    whether it is zero (its truthiness). A [dict] is its list of items in
    insertion order. *)
#[warnings="-register-all"] Inductive json : Type :=
| JNull
| JBool (b : bool)
| JInt (n : Z)
| JFloat (nonzero : bool)
| JStr (s : string)
| JArr (items : list json)
| JObj (items : list (string * json)).

(** Python truthiness, as used by [if not social_posts] and
    [if twitter_thread]. *)
Definition py_truthy (v : json) : bool :=
  match v with
  | JNull => false
  | JBool b => b
  | JInt n => negb (n =? 0)%Z
  | JFloat nz => nz
  | JStr s => str_truthy s
  | JArr l => match l with [] => false | _ => true end
  | JObj l => match l with [] => false | _ => true end
  end.

(** [d.get(key)]: the value, or [None]. *)
Fixpoint dict_get (key : string) (items : list (string * json)) : json :=
  match items with
  | [] => JNull
  | (k, v) :: rest => if String.eqb k key then v else dict_get key rest
  end.

(** [d[key] = v] on the item list: overwrite in place, or append. *)
Fixpoint dict_set (key : string) (v : json) (items : list (string * json))
  : list (string * json) :=
  match items with
  | [] => [(key, v)]
  | (k, v0) :: rest =>
      if String.eqb k key then (k, v) :: rest else (k, v0) :: dict_set key v rest
  end.

Fixpoint chars (s : string) : list json :=
  match s with
  | EmptyString => []
  | String a r => JStr (String a EmptyString) :: chars r
  end.

(** What [enumerate(tweet_thread)] iterates over: the elements of a list,
    the characters of a string, the keys of a dict; [None] is the
    [TypeError] of a value that is not iterable. *)
Definition py_iter (v : json) : option (list json) :=
  match v with
  | JArr l => Some l
  | JStr s => Some (chars s)
  | JObj kvs => Some (JStr <$> remove_dups (fst <$> kvs))
  | _ => None
  end.

(** ** The processed-set store: processed_posts.txt

    The file is [None] while it does not exist, and its text otherwise.
    Reading in text mode uses Python's universal newlines: CR LF and a
    lone CR both arrive as LF. *)
Fixpoint universal_newlines (s : string) : string :=
  match s with
  | EmptyString => EmptyString
  | String c r =>
      if Ascii.eqb c CR then
        String LF
          match r with
          | String c' r' =>
              if Ascii.eqb c' LF then universal_newlines r'
              else universal_newlines r
          | EmptyString => EmptyString
          end
      else String c (universal_newlines r)
  end.

(** [for line in f]: the lines of the text, each with its terminating LF
    (the last one without, when the text does not end in LF). *)
Fixpoint readlines (s : string) : list string :=
  match s with
  | EmptyString => []
  | String c r =>
      if Ascii.eqb c LF then String LF EmptyString :: readlines r
      else match readlines r with
           | [] => [String c EmptyString]
           | l :: ls => String c l :: ls
           end
  end.

(** [load_processed_posts()] *)
Definition load_processed_posts (file : option string) : gset string :=
  match file with
  | None => ∅
  | Some text => list_to_set (strip <$> readlines (universal_newlines text))
  end.

(** The write of [save_processed_post(url)]: open in append mode (which
    creates the file) and write [url + LF]. *)
Definition append_line (file : option string) (url : string) : option string :=
  Some (default EmptyString file +:+ url +:+ String LF EmptyString).

(** ** Configuration, feed entries, events *)

Record config : Type := {
  GOOGLE_API_KEY : option string;
  TWITTER_API_KEY : option string;
  TWITTER_API_SECRET : option string;
  TWITTER_ACCESS_TOKEN : option string;
  TWITTER_ACCESS_TOKEN_SECRET : option string
}.

(** A feed entry: [id] may be absent (then [post.get('id', post.link)] is
    the link), [summary] may be absent. [title] and [link] are always
    there, as the feed's contract has it; an entry without one of them,
    on which [post.title] or [post.link] raises, is outside this model. *)
Record post : Type := {
  id : option string;
  link : string;
  title : string;
  summary : option string
}.

Definition post_id (p : post) : string := default (link p) (id p).

(** The arguments of [summarize_with_gemini]; the prompt is an f-string of
    exactly these four values. *)
Record request : Type := {
  original_summary : string;
  req_title : string;
  req_link : string;
  date : string
}.

(** What one call of the Gemini client yields: an exception, or a response
    whose [text] may be [None]. *)
Inductive gen_result : Type :=
| GenRaise
| GenResponse (text : option string).

Inductive event : Type :=
| EvSummarize (rq : request)          (* summarize_with_gemini is called *)
| EvGenerate (rq : request)           (* generate_content: one attempt *)
| EvSleep (seconds : Z)               (* time.sleep *)
| EvPostToTwitter (thread : json)     (* post_to_twitter is called *)
| EvCreateTweet (text : json) (in_reply_to : option string)
                (result : option string)   (* create_tweet; None: it raised *)
| EvSave (url : string).              (* save_processed_post *)

Record world : Type := {
  file : option string;
  log : list event
}.

Definition emit (es : list event) (w : world) : world :=
  {| file := file w; log := log w ++ es |}.

Definition is_generate (e : event) : bool :=
  match e with EvGenerate _ => true | _ => false end.
Definition is_sleep (e : event) : bool :=
  match e with EvSleep _ => true | _ => false end.
Definition is_create_tweet (e : event) : bool :=
  match e with EvCreateTweet _ _ _ => true | _ => false end.
Definition is_publish (e : event) : bool :=
  match e with EvPostToTwitter _ => true | _ => false end.
(** The events of the synthesizer. *)
Definition is_synth (e : event) : bool :=
  match e with EvSummarize _ | EvGenerate _ | EvSleep _ => true | _ => false end.

(** How many events of a kind a log holds. *)
Fixpoint count (f : event -> bool) (es : list event) : nat :=
  match es with
  | [] => 0
  | e :: r => (if f e then 1 else 0) + count f r
  end.

(** The segments that went live, and the segments for which a post was
    attempted. *)
Fixpoint posted (es : list event) : list json :=
  match es with
  | [] => []
  | EvCreateTweet t _ (Some _) :: r => t :: posted r
  | _ :: r => posted r
  end.

Fixpoint attempted (es : list event) : list json :=
  match es with
  | [] => []
  | EvCreateTweet t _ _ :: r => t :: attempted r
  | _ :: r => attempted r
  end.

(** The identifiers committed, in order. *)
Fixpoint saves (es : list event) : list string :=
  match es with
  | [] => []
  | EvSave url :: r => url :: saves r
  | _ :: r => saves r
  end.

(** The post id that the [k]-th event of a publishing run returned. *)
Definition returned_id (es : list event) (k : nat) : option string :=
  match es !! k with
  | Some (EvCreateTweet _ _ r) => r
  | _ => None
  end.

(** The parent a strict reply chain gives the [k]-th post: none for the
    first, and the id returned for the post just before it otherwise. *)
Definition chain_parent (es : list event) (k : nat) : option string :=
  match k with
  | O => None
  | S j => returned_id es j
  end.

(** [save_processed_post(url)] *)
Definition save_processed_post (url : string) (w : world) : world :=
  {| file := append_line (file w) url; log := log w ++ [EvSave url] |}.

(** ** A model of [json.loads]

    The general development takes the parser as an oracle; the concrete
    runs below use this recursive-descent parser. It follows Python's
    decoder (strict mode) on the JSON subset without fractions, exponents,
    [\u] escapes and the [NaN]/[Infinity] literals, which it rejects; a
    rejection stands for [json.JSONDecodeError]. *)
Definition is_json_ws (c : ascii) : bool :=
  let n := nat_of_ascii c in
  (n =? 32) || (n =? 9) || (n =? 10) || (n =? 13).

Fixpoint skip_ws (s : string) : string :=
  match s with
  | String c r => if is_json_ws c then skip_ws r else s
  | EmptyString => EmptyString
  end.

Definition unescape (c : ascii) : option ascii :=
  let n := nat_of_ascii c in
  if (n =? 34) || (n =? 92) || (n =? 47) then Some c
  else if n =? 98 then Some (ascii_of_nat 8)
  else if n =? 102 then Some (ascii_of_nat 12)
  else if n =? 110 then Some LF
  else if n =? 114 then Some CR
  else if n =? 116 then Some (ascii_of_nat 9)
  else None.

(** The body of a string literal, after its opening quote. *)
Fixpoint scan_string (s : string) : option (string * string) :=
  match s with
  | EmptyString => None
  | String c r =>
      if Ascii.eqb c DQ then Some (EmptyString, r)
      else if nat_of_ascii c =? 92 then
        match r with
        | String e r' =>
            match unescape e, scan_string r' with
            | Some ch, Some (t, rest) => Some (String ch t, rest)
            | _, _ => None
            end
        | EmptyString => None
        end
      else if nat_of_ascii c <? 32 then None
      else match scan_string r with
           | Some (t, rest) => Some (String c t, rest)
           | None => None
           end
  end.

Definition digit_val (c : ascii) : option Z :=
  let n := nat_of_ascii c in
  if (48 <=? n) && (n <=? 57) then Some (Z.of_nat (n - 48)) else None.

Fixpoint scan_digits (acc : Z) (s : string) : Z * string :=
  match s with
  | String c r =>
      match digit_val c with
      | Some d => scan_digits (acc * 10 + d)%Z r
      | None => (acc, s)
      end
  | EmptyString => (acc, s)
  end.

(** An integer literal without sign; a following fraction or exponent
    puts the number outside the subset. *)
Definition scan_int (s : string) : option (Z * string) :=
  match s with
  | String c r =>
      match digit_val c with
      | Some d =>
          let '(n, rest) := if (d =? 0)%Z then (0%Z, r) else scan_digits d r in
          match rest with
          | String c' _ =>
              let k := nat_of_ascii c' in
              if (k =? 46) || (k =? 101) || (k =? 69) then None
              else Some (n, rest)
          | EmptyString => Some (n, rest)
          end
      | None => None
      end
  | EmptyString => None
  end.

Fixpoint strip_prefix (p s : string) : option string :=
  match p, s with
  | EmptyString, _ => Some s
  | String a p', String b s' => if Ascii.eqb a b then strip_prefix p' s' else None
  | _, _ => None
  end.

Fixpoint parse_value (fuel : nat) (s : string) : option (json * string) :=
  match fuel with
  | O => None
  | S f =>
      match skip_ws s with
      | EmptyString => None
      | String c r =>
          let n := nat_of_ascii c in
          if n =? 34 then
            match scan_string r with
            | Some (t, rest) => Some (JStr t, rest)
            | None => None
            end
          else if n =? 91 then
            match skip_ws r with
            | String c' r' =>
                if nat_of_ascii c' =? 93 then Some (JArr [], r')
                else parse_elements f r []
            | EmptyString => None
            end
          else if n =? 123 then
            match skip_ws r with
            | String c' r' =>
                if nat_of_ascii c' =? 125 then Some (JObj [], r')
                else parse_members f r []
            | EmptyString => None
            end
          else if n =? 45 then
            match scan_int r with
            | Some (k, rest) => Some (JInt (- k), rest)
            | None => None
            end
          else if (48 <=? n) && (n <=? 57) then
            match scan_int (String c r) with
            | Some (k, rest) => Some (JInt k, rest)
            | None => None
            end
          else
            match strip_prefix "null" (String c r),
                  strip_prefix "true" (String c r),
                  strip_prefix "false" (String c r) with
            | Some rest, _, _ => Some (JNull, rest)
            | _, Some rest, _ => Some (JBool true, rest)
            | _, _, Some rest => Some (JBool false, rest)
            | _, _, _ => None
            end
      end
  end
with parse_elements (fuel : nat) (s : string) (acc : list json)
  : option (json * string) :=
  match fuel with
  | O => None
  | S f =>
      match parse_value f s with
      | Some (v, rest) =>
          match skip_ws rest with
          | String c r =>
              if nat_of_ascii c =? 44 then parse_elements f r (acc ++ [v])
              else if nat_of_ascii c =? 93 then Some (JArr (acc ++ [v]), r)
              else None
          | EmptyString => None
          end
      | None => None
      end
  end
with parse_members (fuel : nat) (s : string) (acc : list (string * json))
  : option (json * string) :=
  match fuel with
  | O => None
  | S f =>
      match skip_ws s with
      | String q r =>
          if nat_of_ascii q =? 34 then
            match scan_string r with
            | Some (key, rest) =>
                match skip_ws rest with
                | String c r1 =>
                    if nat_of_ascii c =? 58 then
                      match parse_value f r1 with
                      | Some (v, rest') =>
                          match skip_ws rest' with
                          | String c' r2 =>
                              if nat_of_ascii c' =? 44
                              then parse_members f r2 (dict_set key v acc)
                              else if nat_of_ascii c' =? 125
                              then Some (JObj (dict_set key v acc), r2)
                              else None
                          | EmptyString => None
                          end
                      | None => None
                      end
                    else None
                | EmptyString => None
                end
            | None => None
            end
          else None
      | EmptyString => None
      end
  end.

Definition json_loads_model (s : string) : option json :=
  match parse_value (2 * String.length s + 2) s with
  | Some (v, rest) =>
      match skip_ws rest with
      | EmptyString => Some v
      | String _ _ => None
      end
  | None => None
  end.

(** [quoted s] is [s] between double quotes, for writing JSON text. *)
Definition quoted (s : string) : string :=
  String DQ (s +:+ String DQ EmptyString).

(** ** The pipeline *)

(** How one pass through the body of the retry loop ends: [return], one of
    the two [continue] statements, or one of the two [except] clauses. *)
Inductive attempt : Type :=
| Returned (v : json)
| Continued
| Excepted.

(** How one pass through the body of the loop of [main] ends; [Raise] is
    an exception that nothing in [main] catches: the [AttributeError] of
    [social_posts.get] on a value that is not a dict. *)
Inductive control : Type := Continue | Break | Raise.

(** How [main] ends: it returns, or an exception escapes it. *)
Inductive outcome : Type := Finished | Uncaught.

Section Pipeline.

(** [json.loads]; [None] is an exception. *)
Variable json_loads : string -> option json.
(** The Gemini client: the answer to the [n]-th call of the run. *)
Variable backend : nat -> request -> gen_result.
(** The Twitter client: what the [n]-th [create_tweet] of the run returns
    for a text and a parent: the new post's id, or [None] when the call
    (or reading the id off its response) raises; a call that raises is
    taken to have posted nothing. *)
Variable platform : nat -> json -> option string -> option string.

(** *** Thread synthesizer: [summarize_with_gemini] *)

Definition attempt_once (r : gen_result) : attempt :=
  match r with
  | GenRaise => Excepted
  | GenResponse response_text =>
      if negb (opt_truthy response_text) then Continued
      else
        let text := default EmptyString response_text in
        let json_start := find text LBRACE in
        let json_end := rfind text RBRACE in
        if (json_start =? -1)%Z || (json_end =? -1)%Z then Continued
        else
          let json_string := slice text json_start (json_end + 1) in
          match json_loads json_string with
          | Some v => Returned v
          | None => Excepted
          end
  end.

(** The code after the [except] clauses: [if i < 2: time.sleep(2)]. *)
Definition backoff (i : nat) : list event :=
  if i <? 2 then [EvSleep 2] else [].

(** [for i in range(3)], started at the [n]-th backend call of the run. *)
Fixpoint attempts (range : list nat) (n : nat) (rq : request)
  : json * list event :=
  match range with
  | [] => (JNull, [])
  | i :: rest =>
      match attempt_once (backend n rq) with
      | Returned v => (v, [EvGenerate rq])
      | Continued =>
          let '(v, es) := attempts rest (S n) rq in
          (v, EvGenerate rq :: es)
      | Excepted =>
          let '(v, es) := attempts rest (S n) rq in
          (v, EvGenerate rq :: backoff i ++ es)
      end
  end.

Definition summarize_with_gemini (rq : request) (w : world) : json * world :=
  let '(v, es) := attempts (seq 0 3) (count is_generate (log w)) rq in
  (v, emit (EvSummarize rq :: es) w).

(** *** Thread publisher: [post_to_twitter] *)

Definition credentials_set (cfg : config) : bool :=
  opt_truthy (TWITTER_API_KEY cfg) && opt_truthy (TWITTER_API_SECRET cfg)
  && opt_truthy (TWITTER_ACCESS_TOKEN cfg)
  && opt_truthy (TWITTER_ACCESS_TOKEN_SECRET cfg).

(** The [for] loop over the segments; [false] is the [except] clause. *)
Fixpoint post_loop (segments : list json) (last_tweet_id : option string)
  (n : nat) : bool * list event :=
  match segments with
  | [] => (true, [])
  | tweet_text :: rest =>
      let parent := if opt_truthy last_tweet_id then last_tweet_id else None in
      match platform n tweet_text parent with
      | None => (false, [EvCreateTweet tweet_text parent None])
      | Some tweet_id =>
          let '(ok, es) := post_loop rest (Some tweet_id) (S n) in
          (ok, EvCreateTweet tweet_text parent (Some tweet_id) :: es)
      end
  end.

(** The result is Python's [None] (bare [return]), [True] or [False]. *)
Definition post_to_twitter (cfg : config) (tweet_thread : json) (w : world)
  : option bool * world :=
  let w0 := emit [EvPostToTwitter tweet_thread] w in
  if negb (credentials_set cfg) then (None, w0)
  else
    match py_iter tweet_thread with
    | None => (Some false, w0)
    | Some segments =>
        let '(ok, es) :=
          post_loop segments None (count is_create_tweet (log w)) in
        (Some ok, emit es w0)
    end.

(** *** Orchestrator: [main] *)

Definition request_of (p : post) (today_date : string) : request :=
  {| original_summary := default EmptyString (summary p);
     req_title := title p;
     req_link := link p;
     date := today_date |}.

Definition for_body (cfg : config) (today_date : string)
  (processed_posts : gset string) (p : post) (w : world) : control * world :=
  if bool_decide (post_id p ∈ processed_posts) then (Continue, w)
  else if negb (opt_truthy (summary p)) then (Continue, w)
  else
    let '(social_posts, w1) :=
      summarize_with_gemini (request_of p today_date) w in
    if negb (py_truthy social_posts) then (Continue, w1)
    else
      match social_posts with
      | JObj items =>
          let twitter_thread := dict_get "twitter_thread" items in
          if py_truthy twitter_thread then
            let '(twitter_post_successful, w2) :=
              post_to_twitter cfg twitter_thread w1 in
            match twitter_post_successful with
            | Some true => (Break, save_processed_post (post_id p) w2)
            | _ => (Break, w2)
            end
          else (Break, save_processed_post (post_id p) w1)
      | _ => (Raise, w1)   (* no [get] on a value that is not a dict *)
      end.

Fixpoint for_posts (cfg : config) (today_date : string)
  (processed_posts : gset string) (posts : list post) (w : world)
  : outcome * world :=
  match posts with
  | [] => (Finished, w)
  | p :: rest =>
      match for_body cfg today_date processed_posts p w with
      | (Continue, w') => for_posts cfg today_date processed_posts rest w'
      | (Break, w') => (Finished, w')
      | (Raise, w') => (Uncaught, w')
      end
  end.

(** [posts] is what [get_latest_posts()] returns in this run. *)
Definition main (cfg : config) (today_date : string) (posts : list post)
  (w : world) : outcome * world :=
  if negb (opt_truthy (GOOGLE_API_KEY cfg)) then (Finished, w)
  else for_posts cfg today_date (load_processed_posts (file w)) posts w.

End Pipeline.

(** The events with which a run can end once an item got a synthesis
    result, after the synthesizer's own events, and whether the item was
    committed: no thread; credentials missing; a thread that cannot be
    iterated; a thread published in full; a publish that failed. [n] is
    the number of [create_tweet] calls made before. *)
Inductive final_events
  (platform : nat -> json -> option string -> option string)
  (cfg : config) (n : nat) (url : string) : list event -> bool -> Prop :=
| fe_no_thread :
    final_events platform cfg n url [EvSave url] true
| fe_no_credentials thread :
    credentials_set cfg = false ->
    final_events platform cfg n url [EvPostToTwitter thread] false
| fe_not_iterable thread :
    credentials_set cfg = true -> py_iter thread = None ->
    final_events platform cfg n url [EvPostToTwitter thread] false
| fe_published thread segs tw :
    credentials_set cfg = true -> py_iter thread = Some segs ->
    post_loop platform segs None n = (true, tw) ->
    final_events platform cfg n url
      (EvPostToTwitter thread :: tw ++ [EvSave url]) true
| fe_failed thread segs tw :
    credentials_set cfg = true -> py_iter thread = Some segs ->
    post_loop platform segs None n = (false, tw) ->
    final_events platform cfg n url (EvPostToTwitter thread :: tw) false.

(** ** Scripted services and sample data for concrete runs *)

(** A backend that answers its [n]-th call with the [n]-th entry of a
    script (and raises once the script is used up). *)
Definition scripted_backend (script : list gen_result)
  : nat -> request -> gen_result :=
  fun n _ => nth n script GenRaise.

(** A platform whose [n]-th [create_tweet] returns the [n]-th entry of a
    script: [Some id], or [None] for an exception. *)
Definition scripted_platform (script : list (option string))
  : nat -> json -> option string -> option string :=
  fun n _ _ => nth n script None.

Definition all_keys : config :=
  {| GOOGLE_API_KEY := Some "g";
     TWITTER_API_KEY := Some "k";
     TWITTER_API_SECRET := Some "s";
     TWITTER_ACCESS_TOKEN := Some "t";
     TWITTER_ACCESS_TOKEN_SECRET := Some "ts" |}.


Definition paper2 : post :=
  {| id := Some "urn:paper:2"; link := "https://example.org/2";
     title := "Paper two"; summary := Some "An abstract." |}.

Definition paper3 : post :=
  {| id := None; link := "https://example.org/3";
     title := "Paper three"; summary := Some "Another abstract." |}.

Definition today : string := "2025-01-31".

(** The JSON text of an object with the three-segment thread a, b, c:
    what stands between its braces, and the whole text. *)
Definition thread_abc_body : string :=
  quoted "twitter_thread" +:+ ":[" +:+ quoted "a" +:+ ","
  +:+ quoted "b" +:+ "," +:+ quoted "c" +:+ "]".

Definition thread_abc_text : string :=
  String LBRACE (thread_abc_body +:+ String RBRACE EmptyString).

Definition thread_abc : json := JArr [JStr "a"; JStr "b"; JStr "c"].

(** The same object inside prose and a markdown fence. *)
Definition fence_open : string :=
  "Here you go:" +:+ String LF ("```json" +:+ String LF EmptyString).

Definition fence_close : string := String LF "```".

Definition fenced_text : string :=
  fence_open +:+ String LBRACE (thread_abc_body +:+ String RBRACE fence_close).

(** An object without the [twitter_thread] field. *)
Definition no_thread_text : string :=
  "{" +:+ quoted "summary" +:+ ":" +:+ quoted "x" +:+ "}".

Definition no_thread_object : json := JObj [("summary", JStr "x")].

(** The request made for [paper2]. *)
Definition request2 : request := request_of paper2 today.

Definition empty_world : world := {| file := None; log := [] |}.

(** A store that already holds the identifier of [paper2]. *)
Definition paper2_done : world :=
  {| file := Some ("urn:paper:2" +:+ String LF EmptyString); log := [] |}.

Definition three_ids : list (option string) :=
  [Some "101"; Some "102"; Some "103"].

(** The second [create_tweet] raises. *)
Definition second_fails : list (option string) :=
  [Some "101"; None; Some "103"].

(** A run over [paper2] alone whose second segment fails to post. *)
Definition failed_run : outcome * world :=
  main json_loads_model
    (scripted_backend [GenResponse (Some thread_abc_text)])
    (scripted_platform second_fails) all_keys today [paper2] empty_world.

(** Three attempts ending in a [continue]: no text, empty text, a text
    without braces. *)
Definition three_soft_failures : list gen_result :=
  [GenResponse None; GenResponse (Some EmptyString);
   GenResponse (Some "no braces here")].


(** Three attempts ending in an exception: the call raises, the braces
    hold no JSON, the call raises again. *)
Definition three_exceptions : list gen_result :=
  [GenRaise; GenResponse (Some "{not json}"); GenRaise].

(** Successive commits, oldest first (one [save_processed_post] per run
    that commits). *)
Definition save_all (urls : list string) (w : world) : world :=
  foldl (fun w url => save_processed_post url w) w urls.

(** An identifier that [load_processed_posts] gives back as written: no
    LF or CR inside, and equal to its stripped form. *)
Definition plain_id (url : string) : Prop :=
  contains url LF = false /\ contains url CR = false /\ strip url = url.

(** A file made of complete lines, or no file. *)
Definition complete_lines (file : option string) : Prop :=
  forall text, file = Some text -> newline_terminated text = true.

(** A configuration without the access token secret. *)
Definition no_token_secret : config :=
  {| GOOGLE_API_KEY := Some "g";
     TWITTER_API_KEY := Some "k";
     TWITTER_API_SECRET := Some "s";
     TWITTER_ACCESS_TOKEN := Some "t";
     TWITTER_ACCESS_TOKEN_SECRET := Some EmptyString |}.

(** A platform that accepts every post. *)
Definition accepting_platform
  : nat -> json -> option string -> option string :=
  fun n _ _ => Some "900".

(** An entry whose identifier ends in a blank. *)
Definition paper4 : post :=
  {| id := Some "urn:paper:4 "; link := "https://example.org/4";
     title := "Paper four"; summary := Some "A third abstract." |}.

(** A run over [paper2] alone that publishes its three segments. *)
Definition published_run : outcome * world :=
  main json_loads_model
    (scripted_backend [GenResponse (Some thread_abc_text)])
    (scripted_platform three_ids) all_keys today [paper2] empty_world.

(** An object whose thread is the number 7. *)
Definition number_thread_text : string :=
  "{" +:+ quoted "twitter_thread" +:+ ":7}".

(** Three identifiers, the first committed twice. *)
Definition three_commits : list string :=
  ["urn:paper:1"; "urn:paper:2"; "urn:paper:1"].

(** The thread object after prose that has braces of its own. *)
Definition braced_prose_text : string :=
  "see {x}: " +:+ thread_abc_text.

(** A backend that answers with the empty object first and with the
    thread object afterwards. *)
Definition empty_object_first : list gen_result :=
  [GenResponse (Some "{}"); GenResponse (Some thread_abc_text)].

(** * Properties *)

(** ** Strings *)

Local Arguments String.append : simpl nomatch.

Lemma append_nil_r (s : string) : s +:+ EmptyString = s.
Proof. induction s as [|a s IH]; simpl; [done | by rewrite IH]. Qed.

Lemma append_assoc (s t u : string) : (s +:+ t) +:+ u = s +:+ (t +:+ u).
Proof. induction s as [|a s IH]; simpl; [done | by rewrite IH]. Qed.

Lemma length_append (s t : string) :
  String.length (s +:+ t) = String.length s + String.length t.
Proof. induction s as [|a s IH]; simpl; [done | by rewrite IH]. Qed.

Lemma contains_append (s t : string) (c : ascii) :
  contains (s +:+ t) c = contains s c || contains t c.
Proof.
  induction s as [|a s IH]; simpl; [done|].
  rewrite IH. by destruct (Ascii.eqb a c).
Qed.

Lemma contains_middle (s t : string) (c : ascii) :
  contains (s +:+ String c t) c = true.
Proof.
  rewrite contains_append. simpl. rewrite Ascii.eqb_refl.
  by rewrite orb_true_r.
Qed.

(** A string that contains [c] splits at the first [c] ... *)
Lemma split_first (s : string) (c : ascii) :
  contains s c = true ->
  exists pre r, s = pre +:+ String c r /\ contains pre c = false.
Proof.
  induction s as [|a s IH]; simpl; [done|].
  destruct (Ascii.eqb a c) eqn:E; simpl.
  - intros _. apply Ascii.eqb_eq in E as ->. by exists EmptyString, s.
  - intros [pre [r [-> Hpre]]]%IH.
    exists (String a pre), r. simpl. by rewrite E.
Qed.

(** ... and at the last [c]. *)
Lemma split_last (s : string) (c : ascii) :
  contains s c = true ->
  exists a suf, s = a +:+ String c suf /\ contains suf c = false.
Proof.
  induction s as [|x s IH]; simpl; [done|].
  destruct (contains s c) eqn:Hs.
  - intros _. destruct (IH eq_refl) as [a [suf [-> Hsuf]]].
    by exists (String x a), suf.
  - rewrite orb_false_r. intros ->%Ascii.eqb_eq.
    by exists EmptyString, s.
Qed.

Lemma find_from_first (pre r : string) (c : ascii) (i : Z) :
  contains pre c = false ->
  find_from c (pre +:+ String c r) i = (i + Z.of_nat (String.length pre))%Z.
Proof.
  revert i. induction pre as [|a pre IH]; intros i; simpl.
  - intros _. rewrite Ascii.eqb_refl. lia.
  - intros [Ha Hpre]%orb_false_elim. rewrite Ha, IH by done. lia.
Qed.

Lemma rfind_from_absent (s : string) (c : ascii) (i : Z) :
  contains s c = false -> rfind_from c s i = (-1)%Z.
Proof.
  revert i. induction s as [|a s IH]; intros i; simpl; [done|].
  intros [Ha Hs]%orb_false_elim. by rewrite IH, Ha.
Qed.

Lemma rfind_from_last (a suf : string) (c : ascii) (i : Z) :
  (0 <= i)%Z -> contains suf c = false ->
  rfind_from c (a +:+ String c suf) i = (i + Z.of_nat (String.length a))%Z.
Proof.
  revert i. induction a as [|x a IH]; intros i Hi Hsuf; simpl.
  - rewrite rfind_from_absent, Ascii.eqb_refl by done. simpl. lia.
  - rewrite IH by (done || lia).
    destruct (Z.eqb_spec (i + 1 + Z.of_nat (String.length a)) (-1)); lia.
Qed.

Lemma substring_middle (pre m suf : string) :
  String.substring (String.length pre) (String.length m) (pre +:+ m +:+ suf) = m.
Proof.
  induction pre as [|a pre IH]; simpl; [|done].
  induction m as [|b m IHm]; simpl; [by destruct suf | by rewrite IHm].
Qed.

Lemma slice_middle (pre m suf : string) :
  slice (pre +:+ m +:+ suf) (Z.of_nat (String.length pre))
        (Z.of_nat (String.length pre) + Z.of_nat (String.length m)) = m.
Proof.
  unfold slice, slice_bound. rewrite !length_append.
  set (p := String.length pre). set (k := String.length m).
  destruct (Z.ltb_spec (Z.of_nat p) 0); [lia|].
  destruct (Z.ltb_spec (Z.of_nat p + Z.of_nat k) 0); [lia|].
  replace (Z.to_nat (Z.min (Z.of_nat p) _)) with p by lia.
  replace (Z.to_nat _) with k by lia.
  apply substring_middle.
Qed.

(** ** Event lists *)

Lemma count_app (f : event -> bool) (a b : list event) :
  count f (a ++ b) = count f a + count f b.
Proof. induction a as [|e a IH]; simpl; [done | rewrite IH; lia]. Qed.

Lemma posted_app (a b : list event) : posted (a ++ b) = posted a ++ posted b.
Proof.
  induction a as [|e a IH]; simpl; [done|].
  destruct e as [| | | |t p [r|]|]; simpl; by rewrite ?IH.
Qed.

Lemma attempted_app (a b : list event) :
  attempted (a ++ b) = attempted a ++ attempted b.
Proof.
  induction a as [|e a IH]; simpl; [done|].
  destruct e; simpl; by rewrite ?IH.
Qed.

Lemma saves_app (a b : list event) : saves (a ++ b) = saves a ++ saves b.
Proof.
  induction a as [|e a IH]; simpl; [done|].
  destruct e; simpl; by rewrite ?IH.
Qed.

(** Synthesizer events post nothing and commit nothing. *)
Lemma synth_silent (es : list event) :
  Forall (fun e => is_synth e = true) es ->
  posted es = [] /\ attempted es = [] /\ saves es = []
  /\ count is_create_tweet es = 0 /\ count is_publish es = 0.
Proof.
  induction 1 as [|e es He _ IH]; [done|].
  destruct IH as (? & ? & ? & ? & ?).
  destruct e; simplify_eq/=; done.
Qed.

Lemma emit_emit (a b : list event) (w : world) :
  emit b (emit a w) = emit (a ++ b) w.
Proof. unfold emit; simpl. by rewrite app_assoc. Qed.

(** ** Thread synthesizer *)

Section Synthesizer_properties.

Variable json_loads : string -> option json.
Variable backend : nat -> request -> gen_result.

Local Abbreviation attempt_once := (attempt_once json_loads).
Local Abbreviation attempts := (attempts json_loads backend).
Local Abbreviation summarize_with_gemini :=
  (summarize_with_gemini json_loads backend).

(** The attempt at the [j]-th backend call is reached when no earlier
    attempt returned. *)
Local Abbreviation reached n rq j :=
  (forall k u, k < j -> attempt_once (backend (n + k) rq) <> Returned u).

(** In a text [pre { mid } suf] with no [{] in [pre] and no [}] in [suf],
    [find] and [rfind] locate the two braces and the slice is [{ mid }]. *)
Lemma braced_slice (pre mid suf : string) :
  contains pre LBRACE = false -> contains suf RBRACE = false ->
  let text := pre +:+ String LBRACE (mid +:+ String RBRACE suf) in
  find text LBRACE = Z.of_nat (String.length pre)
  /\ rfind text RBRACE
     = (Z.of_nat (String.length pre) + 1 + Z.of_nat (String.length mid))%Z
  /\ slice text (find text LBRACE) (rfind text RBRACE + 1)
     = String LBRACE (mid +:+ String RBRACE EmptyString).
Proof.
  intros Hpre Hsuf text.
  assert (find text LBRACE = Z.of_nat (String.length pre)) as Hf.
  { unfold find, text. rewrite find_from_first by done. lia. }
  assert (rfind text RBRACE
          = (Z.of_nat (String.length pre) + 1 + Z.of_nat (String.length mid))%Z)
    as Hr.
  { unfold rfind, text.
    replace (pre +:+ String LBRACE (mid +:+ String RBRACE suf))
      with ((pre +:+ String LBRACE mid) +:+ String RBRACE suf)
      by (by rewrite append_assoc).
    rewrite rfind_from_last by (done || lia).
    rewrite length_append. simpl. lia. }
  split_and!; [done..|]. rewrite Hf, Hr.
  set (obj := String LBRACE (mid +:+ String RBRACE EmptyString)).
  assert (text = pre +:+ obj +:+ suf) as ->.
  { unfold text, obj. simpl. by rewrite append_assoc. }
  replace (Z.of_nat (String.length pre) + 1 + Z.of_nat (String.length mid) + 1)%Z
    with (Z.of_nat (String.length pre) + Z.of_nat (String.length obj))%Z.
  { apply slice_middle. }
  unfold obj. simpl. rewrite length_append. simpl. lia.
Qed.

(** Exactly [{ mid }] goes to the parser. *)
Lemma attempt_once_braced (pre mid suf : string) :
  contains pre LBRACE = false -> contains suf RBRACE = false ->
  attempt_once
    (GenResponse (Some (pre +:+ String LBRACE (mid +:+ String RBRACE suf)))) =
  match json_loads (String LBRACE (mid +:+ String RBRACE EmptyString)) with
  | Some v => Returned v
  | None => Excepted
  end.
Proof.
  intros Hpre Hsuf.
  destruct (braced_slice pre mid suf Hpre Hsuf) as (Hf & Hr & Hs).
  unfold attempt_once.
  set (text := pre +:+ String LBRACE (mid +:+ String RBRACE suf)) in *.
  assert (opt_truthy (Some text) = true) as -> by (subst text; by destruct pre).
  simpl negb. cbv iota. simpl default. rewrite Hs, Hf, Hr.
  destruct (Z.eqb_spec (Z.of_nat (String.length pre)) (-1)); [lia|].
  by destruct (Z.eqb_spec
    (Z.of_nat (String.length pre) + 1 + Z.of_nat (String.length mid)) (-1));
    [lia|].
Qed.

(** Any text with a [{] somewhere before a [}] splits at its first [{]
    and its last [}]. *)
Lemma braces_split (a m b : string) :
  exists pre mid suf,
    a +:+ String LBRACE (m +:+ String RBRACE b)
    = pre +:+ String LBRACE (mid +:+ String RBRACE suf)
    /\ contains pre LBRACE = false /\ contains suf RBRACE = false.
Proof.
  assert (exists pre r,
    a +:+ String LBRACE (m +:+ String RBRACE b) = pre +:+ String LBRACE r
    /\ contains pre LBRACE = false /\ contains r RBRACE = true)
    as (pre & r & -> & Hpre & Hr).
  { induction a as [|x a IH]; simpl.
    - exists EmptyString, (m +:+ String RBRACE b).
      by rewrite contains_middle.
    - destruct IH as (pre & r & Heq & Hpre & Hr).
      destruct (Ascii.eqb x LBRACE) eqn:E.
      + apply Ascii.eqb_eq in E as ->.
        exists EmptyString, (a +:+ String LBRACE (m +:+ String RBRACE b)).
        repeat split; try done.
        rewrite contains_append. simpl contains at 2.
        by rewrite contains_middle, !orb_true_r.
      + exists (String x pre), r. simpl. by rewrite Heq, E. }
  destruct (split_last r RBRACE Hr) as (mid & suf & -> & Hsuf).
  by exists pre, mid, suf.
Qed.

(** The retry loop emits synthesizer events only. *)
Lemma attempts_synth (range : list nat) (n : nat) (rq : request) :
  Forall (fun e => is_synth e = true) (attempts range n rq).2.
Proof.
  revert n. induction range as [|i rest IH]; intros n; simpl; [done|].
  specialize (IH (S n)).
  destruct (attempt_once (backend n rq)); simpl.
  - by repeat constructor.
  - destruct (attempts rest (S n) rq); simpl in *. by constructor.
  - destruct (attempts rest (S n) rq); simpl in *. constructor; [done|].
    apply Forall_app; split; [|done].
    unfold backoff. destruct (i <? 2); by repeat constructor.
Qed.

Lemma summarize_emits (rq : request) (w : world) :
  exists v es,
    summarize_with_gemini rq w = (v, emit (EvSummarize rq :: es) w)
    /\ attempts (seq 0 3) (count is_generate (log w)) rq = (v, es)
    /\ Forall (fun e => is_synth e = true) (EvSummarize rq :: es).
Proof.
  unfold summarize_with_gemini.
  pose proof (attempts_synth (seq 0 3) (count is_generate (log w)) rq) as H.
  destruct (attempts (seq 0 3) (count is_generate (log w)) rq) as [v es].
  exists v, es. split_and!; [done..|]. by constructor.
Qed.


(** What the retry loop returns: the value of the first attempt that
    returned, right after that attempt's backend call, or [None] once the
    range is used up. *)
Lemma attempts_result (range : list nat) (n : nat) (rq : request)
  (v : json) (es : list event) :
  attempts range n rq = (v, es) ->
  (exists j pre,
      j < length range /\ reached n rq j
      /\ attempt_once (backend (n + j) rq) = Returned v
      /\ es = pre ++ [EvGenerate rq] /\ count is_generate pre = j)
  \/ (v = JNull /\ reached n rq (length range)
      /\ count is_generate es = length range).
Proof.
  revert n v es. induction range as [|i rest IH]; intros n v es; simpl.
  - intros [= <- <-]. right. split_and!; [done| |done]. intros; lia.
  - destruct (attempt_once (backend n rq)) as [u| |] eqn:E.
    + intros [= <- <-]. left. exists 0, []. rewrite Nat.add_0_r.
      split_and!; try done; [lia | intros; lia].
    + destruct (attempts rest (S n) rq) as [v' es'] eqn:Hrest.
      intros [= <- <-].
      destruct (IH _ _ _ Hrest) as [(j & pre & Hj & Hreach & Hret & -> & Hc)
                                   |(-> & Hreach & Hc)].
      * left. exists (S j), (EvGenerate rq :: pre).
        rewrite Nat.add_succ_r. simpl. rewrite Hc.
        split_and!; try done; [lia|].
        intros [|k] u Hk; [by rewrite Nat.add_0_r, E|].
        rewrite Nat.add_succ_r. apply Hreach. lia.
      * right. simpl. rewrite Hc. split_and!; try done.
        intros [|k] u Hk; [by rewrite Nat.add_0_r, E|].
        rewrite Nat.add_succ_r. apply Hreach. lia.
    + destruct (attempts rest (S n) rq) as [v' es'] eqn:Hrest.
      intros [= <- <-].
      assert (count is_generate (backoff i) = 0) as Hb
        by (unfold backoff; by destruct (i <? 2)).
      destruct (IH _ _ _ Hrest) as [(j & pre & Hj & Hreach & Hret & -> & Hc)
                                   |(-> & Hreach & Hc)].
      * left. exists (S j), (EvGenerate rq :: backoff i ++ pre).
        rewrite Nat.add_succ_r. simpl. rewrite count_app, Hb, Hc.
        split_and!; try done; [lia| |by rewrite app_assoc].
        intros [|k] u Hk; [by rewrite Nat.add_0_r, E|].
        rewrite Nat.add_succ_r. apply Hreach. lia.
      * right. simpl. rewrite count_app, Hb, Hc. split_and!; try done.
        intros [|k] u Hk; [by rewrite Nat.add_0_r, E|].
        rewrite Nat.add_succ_r. apply Hreach. lia.
Qed.

(** An attempt returns exactly when the response has a non-empty text
    with both braces whose slice parses; nothing else is asked of the
    parsed value. *)
Lemma attempt_once_Returned (r : gen_result) (v : json) :
  attempt_once r = Returned v <->
  exists text,
    r = GenResponse (Some text) /\ str_truthy text = true
    /\ find text LBRACE <> (-1)%Z /\ rfind text RBRACE <> (-1)%Z
    /\ json_loads (slice text (find text LBRACE) (rfind text RBRACE + 1))
       = Some v.
Proof.
  unfold attempt_once. split.
  - destruct r as [|[text|]]; simpl; try done.
    destruct (str_truthy text) eqn:Ht; simpl; [|done].
    destruct (Z.eqb_spec (find text LBRACE) (-1)); simpl; [done|].
    destruct (Z.eqb_spec (rfind text RBRACE) (-1)); simpl; [done|].
    destruct (json_loads _) eqn:Hp; [|done].
    intros [= <-]. by exists text.
  - intros (text & -> & Ht & Hf & Hr & Hp). simpl. rewrite Ht. simpl.
    destruct (Z.eqb_spec (find text LBRACE) (-1)); [done|].
    destruct (Z.eqb_spec (rfind text RBRACE) (-1)); [done|].
    simpl. by rewrite Hp.
Qed.

(** An attempt ends in an [except] clause exactly when the backend call
    raised, or the slice between the braces did not parse. *)
Lemma attempt_once_Excepted (r : gen_result) :
  attempt_once r = Excepted <->
  r = GenRaise
  \/ exists text,
       r = GenResponse (Some text) /\ str_truthy text = true
       /\ find text LBRACE <> (-1)%Z /\ rfind text RBRACE <> (-1)%Z
       /\ json_loads (slice text (find text LBRACE) (rfind text RBRACE + 1))
          = None.
Proof.
  unfold attempt_once. split.
  - destruct r as [|[text|]]; simpl; [by left|..|done].
    destruct (str_truthy text) eqn:Ht; simpl; [|done].
    destruct (Z.eqb_spec (find text LBRACE) (-1)); simpl; [done|].
    destruct (Z.eqb_spec (rfind text RBRACE) (-1)); simpl; [done|].
    destruct (json_loads _) eqn:Hp; [done|].
    intros _. right. by exists text.
  - intros [->|(text & -> & Ht & Hf & Hr & Hp)]; [done|].
    simpl. rewrite Ht. simpl.
    destruct (Z.eqb_spec (find text LBRACE) (-1)); [done|].
    destruct (Z.eqb_spec (rfind text RBRACE) (-1)); [done|].
    simpl. by rewrite Hp.
Qed.

(** After an attempt that ended in an [except] clause come its backoff
    and then the remaining attempts. *)
Lemma attempts_excepted (range : list nat) (n : nat) (rq : request)
  (j i : nat) :
  range !! j = Some i -> reached n rq j ->
  attempt_once (backend (n + j) rq) = Excepted ->
  exists pre,
    (attempts range n rq).2
    = pre ++ EvGenerate rq :: backoff i
          ++ (attempts (drop (S j) range) (n + S j) rq).2
    /\ count is_generate pre = j.
Proof.
  revert n j. induction range as [|i0 rest IH]; intros n j; [done|].
  destruct j as [|j]; simpl.
  - intros [= ->] _. rewrite Nat.add_0_r, Nat.add_1_r. intros ->.
    exists []. rewrite drop_0.
    by destruct (attempts rest (S n) rq).
  - intros Hi Hreach Hexc. rewrite !Nat.add_succ_r in *.
    destruct (IH (S n) j Hi) as (pre & Heq & Hc); [|done|].
    { intros k u Hk. specialize (Hreach (S k) u).
      rewrite Nat.add_succ_r in Hreach. apply Hreach. lia. }
    simpl in Heq. rewrite !Nat.add_succ_r in Heq.
    pose proof (Hreach 0) as H0. rewrite Nat.add_0_r in H0.
    destruct (attempt_once (backend n rq)) as [u| |] eqn:E.
    + exfalso. apply (H0 u); [lia | done].
    + destruct (attempts rest (S n) rq) as [v' es']. simpl in *.
      exists (EvGenerate rq :: pre). simpl. by rewrite Heq, Hc.
    + destruct (attempts rest (S n) rq) as [v' es']. simpl in *.
      exists (EvGenerate rq :: backoff i0 ++ pre). simpl.
      rewrite Heq, count_app, Hc, <- app_assoc. split; [done|].
      unfold backoff. by destruct (i0 <? 2).
Qed.

(** The three attempts of [range(3)] sleep at most twice, two seconds
    each time. *)
Lemma attempts3_sleeps (n : nat) (rq : request) :
  let es := (attempts (seq 0 3) n rq).2 in
  count is_sleep es <= 2 /\ forall s, EvSleep s ∈ es -> s = 2%Z.
Proof.
  simpl.
  destruct (attempt_once (backend n rq));
    destruct (attempt_once (backend (S n) rq));
    destruct (attempt_once (backend (S (S n)) rq)); simpl;
    (split; [lia|]; intros s Hs;
     repeat (apply elem_of_cons in Hs as [Hs|Hs]; [by simplify_eq|]);
     by apply elem_of_nil in Hs).
Qed.

(** C8, as the code has it. A response text with a [{] somewhere before a
    [}] splits at its first [{] and its last [}]; [find] and [rfind]
    locate exactly these two, and the attempt hands the substring from
    the one through the other to the parser and returns what the parser
    returns. So a JSON object comes back from the first attempt when the
    text around it has no [{] before it and no [}] after it (prose, a
    markdown fence); a brace in the surrounding text moves the slice and
    the object is not what is parsed. *)
Theorem extraction_first_to_last_brace :
  (forall a m b : string,
     let text := a +:+ String LBRACE (m +:+ String RBRACE b) in
     exists pre mid suf,
       text = pre +:+ String LBRACE (mid +:+ String RBRACE suf)
       /\ contains pre LBRACE = false /\ contains suf RBRACE = false
       /\ find text LBRACE = Z.of_nat (String.length pre)
       /\ rfind text RBRACE
          = (Z.of_nat (String.length pre) + 1
             + Z.of_nat (String.length mid))%Z
       /\ slice text (find text LBRACE) (rfind text RBRACE + 1)
          = String LBRACE (mid +:+ String RBRACE EmptyString)
       /\ attempt_once (GenResponse (Some text))
          = match json_loads
                    (String LBRACE (mid +:+ String RBRACE EmptyString)) with
            | Some v => Returned v
            | None => Excepted
            end)
  /\ (forall (pre mid suf : string) (v : json) (rq : request) (w : world),
        contains pre LBRACE = false -> contains suf RBRACE = false ->
        json_loads (String LBRACE (mid +:+ String RBRACE EmptyString))
        = Some v ->
        backend (count is_generate (log w)) rq
        = GenResponse
            (Some (pre +:+ String LBRACE (mid +:+ String RBRACE suf))) ->
        summarize_with_gemini rq w
        = (v, emit [EvSummarize rq; EvGenerate rq] w)).
Proof.
  split.
  - intros a m b text.
    destruct (braces_split a m b) as (pre & mid & suf & Heq & Hpre & Hsuf).
    exists pre, mid, suf. subst text. rewrite Heq.
    destruct (braced_slice pre mid suf Hpre Hsuf) as (Hf & Hr & Hs).
    split_and!; try done. by apply attempt_once_braced.
  - intros pre mid suf v rq w Hpre Hsuf Hparse Hresp.
    unfold summarize_with_gemini. simpl.
    by rewrite Hresp, attempt_once_braced, Hparse.
Qed.

(** C3, as the code has it. [summarize_with_gemini] returns the value of
    the first of its (at most three) attempts whose response has a
    non-empty text with both braces whose slice parses, and [None] when
    no attempt does; nothing is asked of the parsed value, so an object
    without [twitter_thread] is returned at once and never retried. *)
Theorem synthesize_returns_first_parsed_value (rq : request) (w : world) :
  let n := count is_generate (log w) in
  (forall v w',
     summarize_with_gemini rq w = (v, w') ->
     exists es,
       w' = emit (EvSummarize rq :: es) w
       /\ ((exists j text,
              j < 3 /\ reached n rq j
              /\ backend (n + j) rq = GenResponse (Some text)
              /\ json_loads
                   (slice text (find text LBRACE) (rfind text RBRACE + 1))
                 = Some v
              /\ count is_generate es = S j)
           \/ (v = JNull /\ reached n rq 3 /\ count is_generate es = 3)))
  /\ (forall text u,
        backend n rq = GenResponse (Some text) ->
        str_truthy text = true ->
        find text LBRACE <> (-1)%Z -> rfind text RBRACE <> (-1)%Z ->
        json_loads (slice text (find text LBRACE) (rfind text RBRACE + 1))
        = Some u ->
        summarize_with_gemini rq w
        = (u, emit [EvSummarize rq; EvGenerate rq] w)).
Proof.
  intros n. split.
  - intros v w'. unfold summarize_with_gemini. fold n.
    destruct (attempts (seq 0 3) n rq) as [v0 es] eqn:Hrun.
    intros [= <- <-]. exists es. split; [done|].
    destruct (attempts_result _ _ _ _ _ Hrun)
      as [(j & pre & Hj & Hreach & Hret & -> & Hc)|(-> & Hreach & Hc)].
    + left. apply attempt_once_Returned in Hret
        as (text & Hresp & _ & _ & _ & Hparse).
      exists j, text. rewrite count_app, Hc. simpl in *.
      split_and!; try done. lia.
    + by right.
  - intros text u Hresp Ht Hf Hr Hparse.
    unfold summarize_with_gemini. fold n. simpl.
    assert (attempt_once (backend n rq) = Returned u) as ->; [|done].
    apply attempt_once_Returned. by exists text.
Qed.

(** C6, as the code has it. One call makes at most three attempts and at
    most two delays, each of two seconds. An attempt that ends in an
    exception (the backend call raised, or the slice did not parse) is
    followed by a two-second delay when it is the first or the second
    attempt, and by nothing when it is the third; three such attempts in
    a row give exactly two delays. The first attempt that returns ends
    the call: its backend call is the last event. *)
Theorem synthesizer_retry_policy (rq : request) (w : world)
  (v : json) (w' : world) :
  summarize_with_gemini rq w = (v, w') ->
  let n := count is_generate (log w) in
  let G := EvGenerate rq in
  exists es,
    w' = emit (EvSummarize rq :: es) w
    /\ count is_generate es <= 3
    /\ count is_sleep es <= 2
    /\ (forall s, EvSleep s ∈ es -> s = 2%Z)
    /\ (forall j, j < 2 -> reached n rq j ->
          attempt_once (backend (n + j) rq) = Excepted ->
          exists pre post,
            es = pre ++ G :: EvSleep 2 :: post /\ count is_generate pre = j)
    /\ (reached n rq 2 ->
          attempt_once (backend (n + 2) rq) = Excepted ->
          v = JNull
          /\ exists pre, es = pre ++ [G] /\ count is_generate pre = 2)
    /\ ((forall j, j < 3 -> attempt_once (backend (n + j) rq) = Excepted) ->
          v = JNull /\ es = [G; EvSleep 2; G; EvSleep 2; G])
    /\ (forall j u, j < 3 -> reached n rq j ->
          attempt_once (backend (n + j) rq) = Returned u ->
          v = u
          /\ exists pre, es = pre ++ [G] /\ count is_generate pre = j).
Proof.
  intros Hrun n G. unfold summarize_with_gemini in Hrun. fold n in Hrun.
  destruct (attempts (seq 0 3) n rq) as [v0 es] eqn:Hat.
  injection Hrun as <- <-. exists es.
  pose proof (attempts3_sleeps n rq) as Hsl. rewrite Hat in Hsl.
  destruct Hsl as [Hsl1 Hsl2].
  pose proof (attempts_result _ _ _ _ _ Hat) as Hres.
  split_and!; try done.
  - destruct Hres as [(j & pre & Hj & _ & _ & -> & Hc)|(_ & _ & ->)];
      [|done].
    rewrite count_app, Hc. simpl in *. lia.
  - intros j Hj Hreach Hexc.
    destruct (attempts_excepted (seq 0 3) n rq j j) as (pre & Heq & Hc);
      [by destruct j as [|[|]]; try lia|done..|].
    rewrite Hat in Heq. simpl fst in Heq; simpl snd in Heq.
    exists pre, (attempts (drop (S j) (seq 0 3)) (n + S j) rq).2.
    split; [|done]. rewrite Heq. unfold backoff.
    by destruct j as [|[|]]; try lia.
  - intros Hreach Hexc.
    destruct (attempts_excepted (seq 0 3) n rq 2 2) as (pre & Heq & Hc);
      [done..|].
    rewrite Hat in Heq. simpl in Heq.
    destruct Hres as [(j & pre' & Hj & Hreach' & Hret & _)|(-> & _)].
    + exfalso. simpl in Hj.
      destruct (decide (j = 2)) as [->|]; [congruence|].
      apply (Hreach j v0); [lia | done].
    + split; [done|]. by exists pre.
  - intros Hall. simpl in Hat.
    rewrite <- (Nat.add_0_r n) in Hat at 1. rewrite (Hall 0) in Hat by lia.
    rewrite <- (Nat.add_1_r n) in Hat at 1. rewrite (Hall 1) in Hat by lia.
    replace (S (S n)) with (n + 2) in Hat by lia.
    rewrite (Hall 2) in Hat by lia. simpl in Hat. by injection Hat as <- <-.
  - intros j u Hj Hreach Hret.
    destruct Hres as [(j' & pre & Hj' & Hreach' & Hret' & -> & Hc)
                     |(_ & Hreach' & _)].
    + assert (j' = j) as ->.
      { destruct (Nat.lt_trichotomy j' j) as [Hlt|[->|Hlt]]; [|done|].
        - exfalso. by apply (Hreach j' v0).
        - exfalso. by apply (Hreach' j u). }
      split; [congruence|]. by exists pre.
    + exfalso. by apply (Hreach' j u).
Qed.

End Synthesizer_properties.

(** ** Processed-set store *)

Lemma newline_terminated_tail (c : ascii) (s : string) :
  newline_terminated (String c s) = true -> newline_terminated s = true.
Proof. by destruct s. Qed.

Lemma universal_newlines_cons2 (c a : ascii) (r : string) :
  universal_newlines (String c (String a r))
  = if Ascii.eqb c CR
    then String LF (if Ascii.eqb a LF then universal_newlines r
                    else universal_newlines (String a r))
    else String c (universal_newlines (String a r)).
Proof. done. Qed.

(** Translation distributes over an append after a text of complete
    lines. The second half of the statement carries the induction over
    the two-character look-ahead. *)
Lemma universal_newlines_append_aux (g f : string) :
  (newline_terminated f = true ->
   universal_newlines (f +:+ g)
   = universal_newlines f +:+ universal_newlines g)
  /\ (forall c, newline_terminated (String c f) = true ->
      universal_newlines (String c f +:+ g)
      = universal_newlines (String c f) +:+ universal_newlines g).
Proof.
  induction f as [|a f [IH1 IH2]].
  - split; [done|]. intros c Hc. simpl in Hc.
    apply Ascii.eqb_eq in Hc as ->. done.
  - split; [intros H; by apply IH2|].
    intros c Hc. apply newline_terminated_tail in Hc.
    pose proof (newline_terminated_tail _ _ Hc) as Hf.
    change (String c (String a f) +:+ g)
      with (String c (String a (f +:+ g))).
    rewrite !universal_newlines_cons2.
    change (String a (f +:+ g)) with (String a f +:+ g).
    destruct (Ascii.eqb c CR).
    + destruct (Ascii.eqb a LF).
      * simpl. by rewrite IH1.
      * by rewrite IH2.
    + by rewrite IH2.
Qed.

Lemma universal_newlines_append (f g : string) :
  newline_terminated f = true ->
  universal_newlines (f +:+ g) = universal_newlines f +:+ universal_newlines g.
Proof. apply universal_newlines_append_aux. Qed.

Lemma universal_newlines_id (s : string) :
  contains s CR = false -> universal_newlines s = s.
Proof.
  induction s as [|a s IH]; [done|]. simpl.
  intros [-> Hs]%orb_false_elim. by rewrite IH.
Qed.

Lemma universal_newlines_terminated_aux (f : string) :
  (newline_terminated f = true ->
   newline_terminated (universal_newlines f) = true)
  /\ (forall c, newline_terminated (String c f) = true ->
      newline_terminated (universal_newlines (String c f)) = true).
Proof.
  induction f as [|a f [IH1 IH2]].
  - split; [done|]. intros c Hc. simpl in Hc.
    apply Ascii.eqb_eq in Hc as ->. done.
  - split; [intros H; by apply IH2|].
    intros c Hc. apply newline_terminated_tail in Hc.
    pose proof (newline_terminated_tail _ _ Hc) as Hf.
    rewrite universal_newlines_cons2.
    destruct (Ascii.eqb c CR).
    + destruct (Ascii.eqb a LF).
      * specialize (IH1 Hf). by destruct (universal_newlines f).
      * specialize (IH2 a Hc).
        by destruct (universal_newlines (String a f)).
    + specialize (IH2 a Hc).
      destruct (universal_newlines (String a f)) eqn:E; [|done].
      exfalso. simpl in E. by destruct (Ascii.eqb a CR).
Qed.

Lemma readlines_nil (s : string) : readlines s = [] -> s = EmptyString.
Proof.
  destruct s as [|c s]; [done|]. simpl.
  destruct (Ascii.eqb c LF); [done|]. by destruct (readlines s).
Qed.

(** One line without LF, followed by LF, reads back as that one line. *)
Lemma readlines_line (l : string) :
  contains l LF = false ->
  readlines (l +:+ String LF EmptyString) = [l +:+ String LF EmptyString].
Proof.
  induction l as [|a l IH]; [done|]. simpl.
  intros [-> Hl]%orb_false_elim. by rewrite IH.
Qed.

Lemma readlines_append_line (t l : string) :
  newline_terminated t = true -> contains l LF = false ->
  readlines (t +:+ l +:+ String LF EmptyString)
  = readlines t ++ [l +:+ String LF EmptyString].
Proof.
  intros Ht Hl. induction t as [|c t IH]; [by apply readlines_line|].
  pose proof (newline_terminated_tail _ _ Ht) as Ht'.
  specialize (IH Ht'). simpl.
  destruct (Ascii.eqb c LF) eqn:Ec; [by rewrite IH|].
  rewrite IH. destruct (readlines t) as [|l0 ls] eqn:Hr; [|done].
  apply readlines_nil in Hr as ->. simpl in Ht. congruence.
Qed.

Lemma rstrip_append_space (s : string) (c : ascii) :
  isspace c = true -> rstrip (s +:+ String c EmptyString) = rstrip s.
Proof.
  intros Hc. induction s as [|a s IH]; simpl; [by rewrite Hc | by rewrite IH].
Qed.

Lemma strip_line (url : string) :
  strip (url +:+ String LF EmptyString) = strip url.
Proof. unfold strip. by rewrite rstrip_append_space. Qed.

(** Whatever the file held, after a commit it consists of complete lines. *)
Lemma append_line_terminated (file : option string) (url : string) :
  exists text,
    append_line file url = Some text /\ newline_terminated text = true.
Proof.
  unfold append_line. eexists; split; [done|].
  generalize (default EmptyString file). intros t.
  assert (forall s, newline_terminated (s +:+ String LF EmptyString) = true)
    as Hs.
  { induction s as [|a s IH]; [done|]. simpl in *.
    destruct (s +:+ String LF EmptyString) eqn:E; [by destruct s | done]. }
  rewrite <- append_assoc. apply Hs.
Qed.

(** C9, as the code has it. When the file is absent or made of complete
    lines (empty or ending in LF, as every file this program wrote is) and
    the identifier has neither LF nor CR in it and equals its stripped
    form, [save_processed_post] followed by [load_processed_posts] gives
    the previous set with the identifier added: the identifier is a
    member, and every earlier member still is. *)
Theorem commit_then_load (url : string) (w : world) :
  (forall text, file w = Some text -> newline_terminated text = true) ->
  contains url LF = false -> contains url CR = false -> strip url = url ->
  let before := load_processed_posts (file w) in
  let after := load_processed_posts (file (save_processed_post url w)) in
  after = before ∪ {[url]}
  /\ url ∈ after
  /\ (forall x, x ∈ before -> x ∈ after).
Proof.
  intros Hfile Hlf Hcr Hstrip before after.
  assert (after = before ∪ {[url]}) as ->.
  2:{ split_and!; [done| |].
      - apply elem_of_union. right. by apply elem_of_singleton.
      - intros x Hx. apply elem_of_union. by left. }
  unfold after, before, save_processed_post, append_line,
    load_processed_posts. simpl.
  set (line := url +:+ String LF EmptyString).
  assert (universal_newlines line = line) as Hline.
  { apply universal_newlines_id. unfold line.
    rewrite contains_append, Hcr. done. }
  assert (strip line = url) as Hsl by (unfold line; by rewrite strip_line).
  destruct (file w) as [text|] eqn:Hf; simpl.
  - specialize (Hfile text eq_refl).
    rewrite universal_newlines_append, Hline by done.
    unfold line. rewrite readlines_append_line; [..|done].
    + fold line. rewrite fmap_app, list_to_set_app_L. simpl.
      by rewrite Hsl, (right_id_L ∅ (∪)).
    + by apply universal_newlines_terminated_aux.
  - rewrite Hline. unfold line. rewrite readlines_line by done.
    fold line. simpl.
    by rewrite Hsl, (right_id_L ∅ (∪)), (left_id_L ∅ (∪)).
Qed.

(** ** Thread publisher *)

Section Publisher_properties.

Variable platform : nat -> json -> option string -> option string.

Local Abbreviation post_loop := (post_loop platform).
Local Abbreviation post_to_twitter := (post_to_twitter platform).

(** The loop makes [create_tweet] calls only. *)
Lemma post_loop_only_tweets (segs : list json) (last : option string)
  (n : nat) :
  Forall (fun e => is_create_tweet e = true) (post_loop segs last n).2.
Proof.
  revert last n. induction segs as [|t rest IH]; intros last n; simpl;
    [done|].
  destruct (platform n t _) as [tid|]; [|by repeat constructor].
  specialize (IH (Some tid) (S n)).
  destruct (post_loop rest (Some tid) (S n)). simpl in *. by constructor.
Qed.

Lemma only_tweets_silent (es : list event) :
  Forall (fun e => is_create_tweet e = true) es ->
  saves es = [] /\ count is_publish es = 0 /\ count is_generate es = 0
  /\ count is_sleep es = 0.
Proof.
  induction 1 as [|e es He _ IH]; [done|]. by destruct e.
Qed.

(** A loop that ends normally posted every segment, in order, and no call
    failed. *)
Lemma post_loop_success (segs : list json) (last : option string) (n : nat)
  (es : list event) :
  post_loop segs last n = (true, es) ->
  posted es = segs /\ attempted es = segs /\ length es = length segs
  /\ forall t p, EvCreateTweet t p None ∉ es.
Proof.
  revert last n es. induction segs as [|t rest IH]; intros last n es; simpl.
  - intros [= <-]. split_and!; try done. intros ?? H. by apply elem_of_nil in H.
  - destruct (platform n t _) as [tid|]; [|done].
    destruct (post_loop rest (Some tid) (S n)) as [ok es'] eqn:Hrest.
    intros [= -> <-]. destruct (IH _ _ _ Hrest) as (Hp & Ha & Hl & Hnone).
    simpl. rewrite Hp, Ha, Hl. split_and!; try done.
    intros t' p' [H|H]%elem_of_cons; [done|]. by apply (Hnone t' p').
Qed.

(** A loop that ends in the [except] clause stopped at the first call
    that raised: the segments before it are live, it is the last event,
    and nothing after it was attempted. *)
Lemma post_loop_failure (segs : list json) (last : option string) (n : nat)
  (es : list event) :
  post_loop segs last n = (false, es) ->
  exists k t p pre,
    segs !! k = Some t
    /\ es = pre ++ [EvCreateTweet t p None]
    /\ length pre = k
    /\ posted es = take k segs /\ attempted es = take (S k) segs.
Proof.
  revert last n es. induction segs as [|t rest IH]; intros last n es; simpl;
    [done|].
  destruct (platform n t _) as [tid|] eqn:Hcall.
  - destruct (post_loop rest (Some tid) (S n)) as [ok es'] eqn:Hrest.
    intros [= -> <-].
    destruct (IH _ _ _ Hrest) as (k & t' & p & pre & Hk & -> & Hl & Hp & Ha).
    exists (S k), t', p,
      (EvCreateTweet t (if opt_truthy last then last else None) (Some tid)
       :: pre).
    simpl. rewrite Hp, Ha, Hl. by split_and!.
  - intros [= <-]. by exists 0, t, (if opt_truthy last then last else None), [].
Qed.

(** With identifiers that are truthy, each call after the first carries
    the identifier returned just before it. *)
Lemma post_loop_chain (segs : list json) (last : option string) (n : nat)
  (ok : bool) (es : list event) :
  (forall i t p tid, platform i t p = Some tid -> str_truthy tid = true) ->
  post_loop segs last n = (ok, es) ->
  forall k e, es !! k = Some e ->
  exists t r,
    segs !! k = Some t
    /\ e = EvCreateTweet t
             match k with
             | O => if opt_truthy last then last else None
             | S j => returned_id es j
             end r.
Proof.
  intros Hids. revert last n ok es.
  induction segs as [|t0 rest IH]; intros last n ok es; simpl.
  - by intros [= <- <-] k e Hk.
  - destruct (platform n t0 _) as [tid|] eqn:Hcall.
    + destruct (post_loop rest (Some tid) (S n)) as [ok' es'] eqn:Hrest.
      intros [= <- <-] [|k] e Hk; simpl in Hk.
      * injection Hk as <-. by eexists _, _.
      * destruct (IH _ _ _ _ Hrest k e Hk) as (t & r & Ht & ->).
        exists t, r. split; [done|]. f_equal.
        destruct k as [|k]; [|done].
        simpl. by rewrite (Hids _ _ _ _ Hcall).
    + intros [= <- <-] [|k] e Hk; simpl in Hk; [|done].
      injection Hk as <-. by eexists _, _.
Qed.

(** Each event of the loop records one call of the platform: the [k]-th
    event is the call for the [k]-th segment, with the parent the chain
    gives it, and its result is what the platform answered to exactly
    that call. *)
Lemma post_loop_calls (segs : list json) (last : option string) (n : nat)
  (ok : bool) (es : list event) :
  (forall i t p tid, platform i t p = Some tid -> str_truthy tid = true) ->
  post_loop segs last n = (ok, es) ->
  forall k e, es !! k = Some e ->
  exists t parent,
    segs !! k = Some t
    /\ parent = match k with
                | O => if opt_truthy last then last else None
                | S j => returned_id es j
                end
    /\ e = EvCreateTweet t parent (platform (n + k) t parent).
Proof.
  intros Hids. revert last n ok es.
  induction segs as [|t0 rest IH]; intros last n ok es; simpl.
  - by intros [= <- <-] k e Hk.
  - destruct (platform n t0 _) as [tid|] eqn:Hcall.
    + destruct (post_loop rest (Some tid) (S n)) as [ok' es'] eqn:Hrest.
      intros [= <- <-] [|k] e Hk; simpl in Hk.
      * injection Hk as <-. eexists t0, _. split_and!; [done..|].
        by rewrite Nat.add_0_r, Hcall.
      * destruct (IH _ _ _ _ Hrest k e Hk) as (t & parent & Ht & Hp & ->).
        exists t, parent. rewrite Nat.add_succ_r. split_and!; [done| |done].
        rewrite Hp. destruct k as [|k]; [|done].
        simpl. by rewrite (Hids _ _ _ _ Hcall).
    + intros [= <- <-] [|k] e Hk; simpl in Hk; [|done].
      injection Hk as <-. eexists t0, _. split_and!; [done..|].
      by rewrite Nat.add_0_r, Hcall.
Qed.

(** The loop goes on as long as the calls succeed: the [k]-th segment
    gets its call whenever all the calls before it returned an
    identifier. *)
Lemma post_loop_progress (segs : list json) (last : option string) (n : nat)
  (ok : bool) (es : list event) :
  post_loop segs last n = (ok, es) ->
  forall k, k < length segs ->
  (forall j, j < k -> returned_id es j <> None) ->
  k < length es.
Proof.
  revert last n ok es.
  induction segs as [|t0 rest IH]; intros last n ok es; simpl.
  - intros _ k Hk. lia.
  - destruct (platform n t0 _) as [tid|] eqn:Hcall.
    + destruct (post_loop rest (Some tid) (S n)) as [ok' es'] eqn:Hrest.
      intros [= <- <-] [|k] Hk Hprev; simpl; [lia|].
      apply -> Nat.succ_lt_mono. eapply IH; [done|lia|].
      intros j Hj. apply (Hprev (S j)). lia.
    + intros [= <- <-] [|k] Hk Hprev; simpl; [lia|].
      exfalso. apply (Hprev 0); [lia|done].
Qed.

(** No call follows a call that raised: every event after the first
    comes after a call that returned an identifier. *)
Lemma post_loop_stops (segs : list json) (last : option string) (n : nat)
  (ok : bool) (es : list event) :
  post_loop segs last n = (ok, es) ->
  forall k e, es !! S k = Some e -> exists tid, returned_id es k = Some tid.
Proof.
  revert last n ok es.
  induction segs as [|t0 rest IH]; intros last n ok es; simpl.
  - by intros [= <- <-] k e Hk.
  - destruct (platform n t0 _) as [tid|] eqn:Hcall.
    + destruct (post_loop rest (Some tid) (S n)) as [ok' es'] eqn:Hrest.
      intros [= <- <-] [|k] e Hk; [by exists tid|].
      by apply (IH _ _ _ _ Hrest k e).
    + by intros [= <- <-] k e Hk.
Qed.

(** On a platform that never raises the loop ends normally. *)
Lemma post_loop_no_raise (segs : list json) (last : option string)
  (n : nat) :
  (forall i t p, platform i t p <> None) ->
  (post_loop segs last n).1 = true.
Proof.
  intros Hacc. revert last n.
  induction segs as [|t rest IH]; intros last n; simpl; [done|].
  destruct (platform n t _) as [tid|] eqn:Hcall; [|by apply Hacc in Hcall].
  specialize (IH (Some tid) (S n)).
  by destruct (post_loop rest (Some tid) (S n)).
Qed.

(** C7. On a platform whose post identifiers are non-empty strings,
    publishing a non-empty thread calls [create_tweet] for the segments
    in order, as a strict linear reply chain. The [k]-th event of the
    call is the platform's own answer to the call for the [k]-th segment,
    made without a parent for the first segment and with the identifier
    returned for the segment just before it for every later one; no call
    follows a call that raised. With the credentials set the first
    segment always gets its call, and each
    later segment gets its call whenever all the calls before it returned
    an identifier; so on a platform that never raises every segment is
    posted. The result is [True] exactly when every segment was posted.
    (Without the four credentials no call is made and the result is not
    [True].) *)
Theorem publish_linear_reply_chain (cfg : config) (thread : json)
  (segs : list json) (w : world) :
  (forall i t p tid, platform i t p = Some tid -> str_truthy tid = true) ->
  py_iter thread = Some segs -> segs <> [] ->
  exists r es,
    post_to_twitter cfg thread w
    = (r, emit (EvPostToTwitter thread :: es) w)
    /\ (credentials_set cfg = true ->
        exists t0, head segs = Some t0
                   /\ head es
                      = Some (EvCreateTweet t0 None
                                (platform (count is_create_tweet (log w))
                                   t0 None)))
    /\ (forall k e, es !! k = Some e ->
          exists t,
            segs !! k = Some t
            /\ e = EvCreateTweet t (chain_parent es k)
                     (platform (count is_create_tweet (log w) + k) t
                        (chain_parent es k)))
    /\ (forall k e, es !! S k = Some e ->
          exists tid, returned_id es k = Some tid)
    /\ (credentials_set cfg = true ->
        forall k, k < length segs ->
        (forall j, j < k -> returned_id es j <> None) ->
        k < length es)
    /\ (credentials_set cfg = true ->
        (forall i t p, platform i t p <> None) ->
        r = Some true /\ posted es = segs)
    /\ (r = Some true <-> posted es = segs)
    /\ (r = Some true -> attempted es = segs).
Proof.
  intros Hids Hiter Hne.
  unfold post_to_twitter. destruct (credentials_set cfg); simpl negb; cbv iota.
  2:{ exists None, []. split_and!; done. }
  rewrite Hiter.
  destruct (post_loop segs None (count is_create_tweet (log w)))
    as [ok es] eqn:Hloop.
  exists (Some ok), es. rewrite emit_emit. split; [done|].
  pose proof (post_loop_calls _ _ _ _ _ Hids Hloop) as Hcalls.
  pose proof (post_loop_progress _ _ _ _ _ Hloop) as Hprogress.
  split_and!.
  - intros _. destruct segs as [|t0 rest]; [done|]. simpl in Hloop.
    exists t0. split; [done|].
    destruct (platform _ t0 None) as [tid|] eqn:Hcall.
    + destruct (post_loop rest (Some tid) _) as [ok' es'].
      by injection Hloop as <- <-.
    + by injection Hloop as <- <-.
  - intros k e Hk.
    destruct (Hcalls k e Hk) as (t & parent & Ht & Hp & ->).
    exists t. split; [done|].
    assert (parent = chain_parent es k) as <- by (by destruct k).
    done.
  - exact (post_loop_stops _ _ _ _ _ Hloop).
  - intros _. exact Hprogress.
  - intros _ Hacc.
    pose proof (post_loop_no_raise segs None
                  (count is_create_tweet (log w)) Hacc) as Hok.
    rewrite Hloop in Hok. simpl in Hok. subst ok.
    by destruct (post_loop_success _ _ _ _ Hloop) as (-> & _).
  - destruct ok.
    + by destruct (post_loop_success _ _ _ _ Hloop) as (-> & _).
    + destruct (post_loop_failure _ _ _ _ Hloop)
        as (k & t & p & pre & Hk & _ & _ & Hp & _).
      split; [done|]. intros Heq. exfalso.
      apply lookup_lt_Some in Hk.
      assert (length (posted es) = length segs) as Hlen by by rewrite Heq.
      rewrite Hp, length_take in Hlen. lia.
  - intros [= ->].
    by destruct (post_loop_success _ _ _ _ Hloop) as (_ & -> & _).
Qed.

End Publisher_properties.

(** ** Orchestrator *)

Section Orchestrator_properties.

Variable json_loads : string -> option json.
Variable backend : nat -> request -> gen_result.
Variable platform : nat -> json -> option string -> option string.

Local Abbreviation summarize_with_gemini :=
  (summarize_with_gemini json_loads backend).
Local Abbreviation post_to_twitter := (post_to_twitter platform).
Local Abbreviation for_body := (for_body json_loads backend platform).
Local Abbreviation for_posts := (for_posts json_loads backend platform).
Local Abbreviation main := (main json_loads backend platform).
Local Abbreviation synth_only :=
  (Forall (fun e : event => is_synth e = true)).

(** An item that does not end the loop left synthesizer events at most,
    and the file as it was. *)
Lemma for_body_quiet (cfg : config) (today_date : string)
  (processed : gset string) (p : post) (w w' : world) (c : control) :
  for_body cfg today_date processed p w = (c, w') -> c <> Break ->
  exists es, w' = emit es w /\ synth_only es.
Proof.
  unfold for_body. intros Hrun Hc.
  assert (w = emit [] w) as Hw.
  { destruct w. unfold emit. simpl. by rewrite app_nil_r. }
  destruct (bool_decide _).
  { injection Hrun as <- <-. by exists []. }
  destruct (opt_truthy (summary p)); simpl in Hrun.
  2:{ injection Hrun as <- <-. by exists []. }
  destruct (summarize_emits json_loads backend (request_of p today_date) w)
    as (v & es & Heq & _ & Hsynth).
  rewrite Heq in Hrun.
  destruct (py_truthy v); simpl in Hrun.
  2:{ injection Hrun as <- <-. by eexists. }
  destruct v; try (injection Hrun as <- <-; by eexists).
  destruct (py_truthy (dict_get _ _)).
  - destruct (post_to_twitter _ _ _) as [[[|]|] w2];
      by injection Hrun as <- <-.
  - by injection Hrun as <- <-.
Qed.

(** An item that ends the loop normally left the synthesizer's events and
    then one of the five endings. *)
Lemma for_body_break (cfg : config) (today_date : string)
  (processed : gset string) (p : post) (w w' : world) :
  for_body cfg today_date processed p w = (Break, w') ->
  exists es fin committed,
    synth_only es
    /\ final_events platform cfg (count is_create_tweet (log w)) (post_id p)
         fin committed
    /\ log w' = log w ++ es ++ fin
    /\ file w' = (if committed then append_line (file w) (post_id p)
                  else file w)
    /\ post_id p ∉ processed.
Proof.
  unfold for_body. intros Hrun.
  destruct (bool_decide _) eqn:Hmem; [done|].
  apply bool_decide_eq_false in Hmem.
  destruct (opt_truthy (summary p)); simpl in Hrun; [|done].
  destruct (summarize_emits json_loads backend (request_of p today_date) w)
    as (v & es & Heq & _ & Hsynth).
  rewrite Heq in Hrun.
  destruct (py_truthy v); simpl in Hrun; [|done].
  destruct v as [| | | | | |items]; try done.
  set (es0 := EvSummarize (request_of p today_date) :: es) in *.
  assert (count is_create_tweet (log w ++ es0)
          = count is_create_tweet (log w)) as Hcount.
  { rewrite count_app.
    destruct (synth_silent es0 Hsynth) as (_ & _ & _ & -> & _). lia. }
  destruct (py_truthy (dict_get _ _)).
  2:{ injection Hrun as <-. exists es0, [EvSave (post_id p)], true.
      simpl. rewrite <- app_assoc. split_and!; try done. constructor. }
  unfold post_to_twitter in Hrun.
  destruct (credentials_set cfg) eqn:Hcreds; simpl in Hrun.
  2:{ injection Hrun as <-. eexists es0, _, false. simpl.
      rewrite <- app_assoc. split_and!; try done. by constructor. }
  destruct (py_iter _) as [segs|] eqn:Hiter.
  2:{ injection Hrun as <-. eexists es0, _, false. simpl.
      rewrite <- app_assoc. split_and!; try done. by constructor. }
  rewrite Hcount in Hrun.
  destruct (post_loop platform segs None _) as [[|] tw] eqn:Hloop;
    injection Hrun as <-.
  - eexists es0, _, true. simpl. split_and!; try done.
    + by eapply fe_published.
    + by rewrite <- !app_assoc.
  - eexists es0, _, false. simpl. split_and!; try done.
    + by eapply fe_failed.
    + by rewrite <- !app_assoc.
Qed.

(** The shape of a whole pass over the feed: synthesizer events of the
    items passed over (and of the last item), then at most one ending. *)
Lemma for_posts_shape (cfg : config) (today_date : string)
  (processed : gset string) (posts : list post) (w w' : world)
  (out : outcome) :
  for_posts cfg today_date processed posts w = (out, w') ->
  exists (quiet fin : list event) (committed : bool) (url : string),
    synth_only quiet
    /\ log w' = log w ++ quiet ++ fin
    /\ file w' = (if committed then append_line (file w) url else file w)
    /\ ((fin = [] /\ committed = false)
        \/ (out = Finished
            /\ final_events platform cfg (count is_create_tweet (log w)) url
                 fin committed
            /\ exists p, p ∈ posts /\ url = post_id p
                         /\ post_id p ∉ processed)).
Proof.
  revert w. induction posts as [|p rest IH]; intros w; simpl.
  - intros [= <- <-]. exists [], [], false, EmptyString.
    rewrite !app_nil_r. split_and!; try done. by left.
  - destruct (for_body cfg today_date processed p w) as [[| |] w1] eqn:Hbody.
    + intros Hrest.
      destruct (for_body_quiet _ _ _ _ _ _ _ Hbody) as (es & -> & Hes);
        [done|].
      destruct (IH _ Hrest)
        as (quiet & fin & committed & url & Hq & Hlog & Hfile & Hend).
      exists (es ++ quiet), fin, committed, url. simpl in *.
      split_and!; try done.
      * by apply Forall_app.
      * by rewrite Hlog, <- !app_assoc.
      * destruct Hend as [?|(-> & Hfin & q & Hq' & -> & Hnew)]; [by left|].
        right. split_and!; try done.
        -- rewrite count_app in Hfin.
           destruct (synth_silent es Hes) as (_ & _ & _ & Hz & _).
           by rewrite Hz, Nat.add_0_r in Hfin.
        -- exists q. split_and!; try done. by apply elem_of_cons; right.
    + intros [= <- <-].
      destruct (for_body_break _ _ _ _ _ _ Hbody)
        as (es & fin & committed & Hes & Hfin & Hlog & Hfile & Hnew).
      exists es, fin, committed, (post_id p). split_and!; try done.
      right. split_and!; try done. exists p.
      split_and!; try done. by apply elem_of_cons; left.
    + intros [= <- <-].
      destruct (for_body_quiet _ _ _ _ _ _ _ Hbody) as (es & -> & Hes);
        [done|].
      exists es, [], false, EmptyString. simpl. rewrite app_nil_r.
      split_and!; try done. by left.
Qed.

(** What an ending commits and posts. *)
Lemma final_events_saves (cfg : config) (n : nat) (url : string)
  (fin : list event) (committed : bool) :
  final_events platform cfg n url fin committed ->
  saves fin = (if committed then [url] else []).
Proof.
  destruct 1 as [| | |thread segs tw _ _ Hloop|thread segs tw _ _ Hloop];
    simpl; try done.
  - rewrite saves_app.
    pose proof (post_loop_only_tweets platform segs None n) as H.
    rewrite Hloop in H. simpl in H.
    by destruct (only_tweets_silent _ H) as (-> & _).
  - pose proof (post_loop_only_tweets platform segs None n) as H.
    rewrite Hloop in H. simpl in H.
    by destruct (only_tweets_silent _ H) as (-> & _).
Qed.

(** C10. Whatever the feed, the services and the credentials, a run
    calls [save_processed_post] at most once: either nothing is committed
    and the file is as before, or exactly one identifier, of an entry of
    the feed, is appended. *)
Theorem at_most_one_commit (cfg : config) (today_date : string)
  (posts : list post) (w : world) :
  let w' := (main cfg today_date posts w).2 in
  exists es,
    log w' = log w ++ es
    /\ length (saves es) <= 1
    /\ ((saves es = [] /\ file w' = file w)
        \/ exists p,
             p ∈ posts /\ saves es = [post_id p]
             /\ file w' = append_line (file w) (post_id p)).
Proof.
  unfold main. destruct (negb _); simpl.
  { exists []. rewrite app_nil_r. split_and!; try done; [simpl; lia | by left]. }
  destruct (for_posts _ _ _ _ _) as [out w'] eqn:Hrun. simpl.
  destruct (for_posts_shape _ _ _ _ _ _ _ Hrun)
    as (quiet & fin & committed & url & Hq & Hlog & Hfile & Hend).
  exists (quiet ++ fin). rewrite saves_app.
  destruct (synth_silent quiet Hq) as (_ & _ & -> & _). simpl.
  destruct Hend as [[-> ->]|(_ & Hfin & p & Hp & -> & _)].
  { split_and!; try done; [simpl; lia | by left]. }
  rewrite (final_events_saves _ _ _ _ _ Hfin).
  destruct committed; simpl; (split_and!; [done|simpl; lia|]).
  - right. by exists p.
  - by left.
Qed.

(** C1. When a [create_tweet] call of a run raises, the run ends there:
    [main] returns, that call is the last event, nothing is committed and
    the file is untouched. The failing call was made for some segment
    [k] of the thread being published; exactly the [k] segments before it
    are live, and no segment after it was attempted. *)
Theorem failed_publish_commits_nothing (cfg : config) (today_date : string)
  (posts : list post) (w w' : world) (out : outcome) (es : list event) :
  main cfg today_date posts w = (out, w') ->
  log w' = log w ++ es ->
  (exists t p, EvCreateTweet t p None ∈ es) ->
  out = Finished /\ file w' = file w /\ saves es = []
  /\ exists thread segs k t p pre,
       es = pre ++ [EvCreateTweet t p None]
       /\ EvPostToTwitter thread ∈ pre
       /\ py_iter thread = Some segs /\ segs !! k = Some t
       /\ posted es = take k segs /\ attempted es = take (S k) segs.
Proof.
  unfold main. intros Hrun Hlog (t & p & Hfail).
  destruct (negb _).
  { injection Hrun as <- <-.
    rewrite <- (app_nil_r (log w)) in Hlog at 1.
    apply app_inv_head in Hlog as <-. by apply elem_of_nil in Hfail. }
  destruct (for_posts_shape _ _ _ _ _ _ _ Hrun)
    as (quiet & fin & committed & url & Hq & Hlog' & Hfile & Hend).
  rewrite Hlog in Hlog'. apply app_inv_head in Hlog' as ->.
  destruct (synth_silent quiet Hq) as (Hqp & Hqa & Hqs & _).
  assert (EvCreateTweet t p None ∈ fin) as Hin.
  { apply elem_of_app in Hfail as [Hfail|Hfail]; [|done].
    rewrite Forall_forall in Hq. by specialize (Hq _ Hfail). }
  destruct Hend as [[-> ->]|(-> & Hfin & _)]; [by apply elem_of_nil in Hin|].
  rewrite saves_app, Hqs, (final_events_saves _ _ _ _ _ Hfin).
  rewrite posted_app, attempted_app, Hqp, Hqa. simpl.
  destruct Hfin as [| | |thread segs tw _ _ Hloop|thread segs tw _ Hiter Hloop].
  - apply elem_of_cons in Hin as [?|Hin]; [done|]. by apply elem_of_nil in Hin.
  - apply elem_of_cons in Hin as [?|Hin]; [done|]. by apply elem_of_nil in Hin.
  - apply elem_of_cons in Hin as [?|Hin]; [done|]. by apply elem_of_nil in Hin.
  - exfalso. destruct (post_loop_success _ _ _ _ _ Hloop) as (_ & _ & _ & Hno).
    apply elem_of_cons in Hin as [?|Hin]; [done|].
    apply elem_of_app in Hin as [Hin|Hin]; [by apply (Hno t p)|].
    apply elem_of_cons in Hin as [?|Hin]; [done|]. by apply elem_of_nil in Hin.
  - destruct (post_loop_failure _ _ _ _ _ Hloop)
      as (k & t' & p' & pre & Hk & -> & _ & Hp & Ha).
    split_and!; try done.
    exists thread, segs, k, t', p', (quiet ++ EvPostToTwitter thread :: pre).
    split_and!; try done.
    + by rewrite <- app_assoc.
    + apply elem_of_app. right. by apply elem_of_cons; left.
Qed.

(** C4. An entry whose identifier is in the processed-set is passed over
    with no effect at all; a run over a feed all of whose identifiers are
    in the set loaded at its start changes nothing (no synthesizer call,
    no publisher call, no commit) and returns; and whatever the feed, an
    identifier a run commits was not in the set loaded at its start. *)
Theorem processed_items_never_reselected (cfg : config)
  (today_date : string) :
  (forall processed p w,
     post_id p ∈ processed ->
     for_body cfg today_date processed p w = (Continue, w))
  /\ (forall posts w,
        (forall p, p ∈ posts -> post_id p ∈ load_processed_posts (file w)) ->
        main cfg today_date posts w = (Finished, w))
  /\ (forall posts w es url,
        log (main cfg today_date posts w).2 = log w ++ es ->
        url ∈ saves es -> url ∉ load_processed_posts (file w)).
Proof.
  assert (forall processed p w,
    post_id p ∈ processed ->
    for_body cfg today_date processed p w = (Continue, w)) as Hbody.
  { intros processed p w Hin. unfold for_body.
    by rewrite bool_decide_eq_true_2. }
  split_and!; [done| |].
  - intros posts w Hall. unfold main. destruct (negb _); [done|].
    induction posts as [|p rest IH]; [done|]. simpl.
    rewrite Hbody by (apply Hall; by apply elem_of_cons; left).
    apply IH. intros q Hq. apply Hall. by apply elem_of_cons; right.
  - intros posts w es url. unfold main. destruct (negb _); simpl.
    { rewrite <- (app_nil_r (log w)) at 1. intros <-%app_inv_head Hin.
      by apply elem_of_nil in Hin. }
    destruct (for_posts _ _ _ _ _) as [out w'] eqn:Hrun. simpl.
    destruct (for_posts_shape _ _ _ _ _ _ _ Hrun)
      as (quiet & fin & committed & url' & Hq & Hlog & _ & Hend).
    rewrite Hlog. intros <-%app_inv_head. rewrite saves_app.
    destruct (synth_silent quiet Hq) as (_ & _ & -> & _). simpl.
    destruct Hend as [[-> _]|(_ & Hfin & p & _ & -> & Hnew)].
    { intros Hin. by apply elem_of_nil in Hin. }
    rewrite (final_events_saves _ _ _ _ _ Hfin).
    destruct committed; intros Hin.
    + apply elem_of_cons in Hin as [->|Hin]; [done|].
      by apply elem_of_nil in Hin.
    + by apply elem_of_nil in Hin.
Qed.

(** C5, as the code has it. When the loop reaches an unprocessed entry
    with a summary, and the synthesizer's result is an object with at
    least one key (so that it passes [if not social_posts]) whose
    [twitter_thread] is missing or falsy (null, an empty list or string,
    zero, false), the entry's identifier is committed, [post_to_twitter]
    is not called, and the run ends: after the synthesizer's events the
    only event is the commit. The empty object is falsy and is passed
    over like no result at all. *)
Theorem missing_thread_is_committed (cfg : config) (today_date : string)
  (processed : gset string) (p : post) (rest : list post) (w w1 : world)
  (items : list (string * json)) :
  post_id p ∉ processed ->
  opt_truthy (summary p) = true ->
  summarize_with_gemini (request_of p today_date) w = (JObj items, w1) ->
  py_truthy (JObj items) = true ->
  py_truthy (dict_get "twitter_thread" items) = false ->
  for_posts cfg today_date processed (p :: rest) w
  = (Finished, save_processed_post (post_id p) w1)
  /\ exists es,
       synth_only es
       /\ log (save_processed_post (post_id p) w1)
          = log w ++ es ++ [EvSave (post_id p)]
       /\ file (save_processed_post (post_id p) w1)
          = append_line (file w) (post_id p).
Proof.
  intros Hnew Hsum Hsynth Hobj Hthread.
  destruct (summarize_emits json_loads backend (request_of p today_date) w)
    as (v & es & Heq & _ & Hes).
  rewrite Hsynth in Heq. injection Heq as <- ->.
  split.
  - simpl. unfold for_body.
    rewrite bool_decide_eq_false_2, Hsum, Hsynth by done.
    remember (dict_get "twitter_thread" items) as thread eqn:Hth.
    destruct items as [|kv items']; [done|]. simpl.
    by rewrite Hthread.
  - eexists. split; [exact Hes|]. simpl. by rewrite <- app_assoc.
Qed.


End Orchestrator_properties.

(** * Concrete runs *)

(** ** The synthesizer on scripted backends *)

(** The fenced answer of the specification's example: the object comes
    back from the first attempt. *)
Lemma extraction_fenced_answer :
  contains fence_open LBRACE = false
  /\ contains fence_close RBRACE = false
  /\ json_loads_model thread_abc_text
     = Some (JObj [("twitter_thread", thread_abc)])
  /\ summarize_with_gemini json_loads_model
       (scripted_backend [GenResponse (Some fenced_text)])
       request2 empty_world
     = (JObj [("twitter_thread", thread_abc)],
        emit [EvSummarize request2; EvGenerate request2] empty_world).
Proof.
  split_and!; [vm_compute; reflexivity..|].
  apply (proj2 (extraction_first_to_last_brace json_loads_model
                  (scripted_backend [GenResponse (Some fenced_text)]))
           fence_open thread_abc_body fence_close);
    vm_compute; reflexivity.
Defined.

(** An object without [twitter_thread] comes back from the first attempt;
    the second answer of the script, which has the field, is never asked
    for. *)
Lemma missing_field_not_retried :
  summarize_with_gemini json_loads_model
    (scripted_backend [GenResponse (Some no_thread_text);
                       GenResponse (Some thread_abc_text)])
    request2 empty_world
  = (no_thread_object,
     {| file := None; log := [EvSummarize request2; EvGenerate request2] |})
  /\ dict_get "twitter_thread" [("summary", JStr "x")] = JNull.
Proof. split; vm_compute; reflexivity. Qed.

Lemma first_parsed_value_returned :
  str_truthy no_thread_text = true
  /\ json_loads_model
       (slice no_thread_text (find no_thread_text LBRACE)
          (rfind no_thread_text RBRACE + 1))
     = Some no_thread_object
  /\ summarize_with_gemini json_loads_model
       (scripted_backend [GenResponse (Some no_thread_text);
                          GenResponse (Some thread_abc_text)])
       request2 empty_world
     = (no_thread_object,
        emit [EvSummarize request2; EvGenerate request2] empty_world).
Proof.
  split_and!; [vm_compute; reflexivity..|].
  apply (proj2 (synthesize_returns_first_parsed_value json_loads_model
                  (scripted_backend [GenResponse (Some no_thread_text);
                                     GenResponse (Some thread_abc_text)])
                  request2 empty_world) no_thread_text);
    vm_compute; (reflexivity || discriminate).
Defined.

(** Three soft failures in a row: three backend calls and no delay. *)
Lemma soft_failures_without_delay :
  summarize_with_gemini json_loads_model
    (scripted_backend three_soft_failures) request2 empty_world
  = (JNull,
     {| file := None;
        log := [EvSummarize request2; EvGenerate request2;
                EvGenerate request2; EvGenerate request2] |})
  /\ count is_sleep
       (log (summarize_with_gemini json_loads_model
               (scripted_backend three_soft_failures)
               request2 empty_world).2) = 0.
Proof. split; vm_compute; reflexivity. Qed.

(** Three exceptions in a row: exactly two delays. *)
Lemma three_exceptions_two_delays :
  exists es,
    (summarize_with_gemini json_loads_model
       (scripted_backend three_exceptions) request2 empty_world).2
    = emit (EvSummarize request2 :: es) empty_world
    /\ es = [EvGenerate request2; EvSleep 2; EvGenerate request2;
             EvSleep 2; EvGenerate request2].
Proof.
  destruct (synthesizer_retry_policy json_loads_model
              (scripted_backend three_exceptions) request2 empty_world
              (summarize_with_gemini json_loads_model
                 (scripted_backend three_exceptions) request2 empty_world).1
              (summarize_with_gemini json_loads_model
                 (scripted_backend three_exceptions) request2 empty_world).2
              eq_refl)
    as (es & Hw & _ & _ & _ & _ & _ & Hall & _).
  exists es. split; [exact Hw|]. apply Hall.
  intros [|[|[|j]]] Hj; [vm_compute; reflexivity..|lia].
Defined.

(** ** The store on concrete files *)

(** A commit after a well-formed file: both identifiers are members. *)
Lemma commit_then_load_paper3 :
  newline_terminated ("urn:paper:2" +:+ String LF EmptyString) = true
  /\ strip (post_id paper3) = post_id paper3
  /\ (post_id paper3
      ∈ load_processed_posts
          (file (save_processed_post (post_id paper3) paper2_done)))
  /\ ("urn:paper:2"
      ∈ load_processed_posts
          (file (save_processed_post (post_id paper3) paper2_done))).
Proof.
  assert (forall text,
            file paper2_done = Some text -> newline_terminated text = true)
    as Hfile by (by intros text [= <-]).
  destruct (commit_then_load (post_id paper3) paper2_done Hfile
              eq_refl eq_refl eq_refl) as (_ & Hin & Hkeep).
  split_and!; [reflexivity..|exact Hin|].
  apply Hkeep. apply (bool_decide_unpack _). vm_compute. exact I.
Defined.

(** Two files and identifiers on which commit-then-load loses a member:
    a file whose last line has no LF glues the new identifier to that
    line, so neither is a member afterwards; and an identifier with a CR
    inside it (no LF, equal to its stripped form) reads back as two
    lines. *)
Lemma commit_then_load_loses_members :
  (contains "x" LF = false /\ strip "x" = "x"
   /\ ("abc" ∈ load_processed_posts (Some "abc"))
   /\ ("x" ∉ load_processed_posts (append_line (Some "abc") "x"))
   /\ ("abc" ∉ load_processed_posts (append_line (Some "abc") "x")))
  /\ (contains ("a" +:+ String CR "b") LF = false
      /\ strip ("a" +:+ String CR "b") = "a" +:+ String CR "b"
      /\ (("a" +:+ String CR "b")
          ∉ load_processed_posts
              (file (save_processed_post ("a" +:+ String CR "b")
                       empty_world)))).
Proof.
  split_and!; try (vm_compute; reflexivity);
    apply (bool_decide_unpack _); vm_compute; exact I.
Qed.

(** ** The publisher on scripted platforms *)

Lemma scripted_ids_truthy (script : list (option string)) :
  Forall (fun r => forall tid, r = Some tid -> str_truthy tid = true) script ->
  forall i t p tid,
    scripted_platform script i t p = Some tid -> str_truthy tid = true.
Proof.
  unfold scripted_platform. intros Hall i _ _ tid. revert i.
  induction Hall as [|r script Hr _ IH]; intros [|i]; simpl; try done.
  - apply Hr.
  - apply IH.
Qed.

(** Three segments on a platform that accepts them all. *)
Lemma publish_abc_chain :
  exists r es,
    post_to_twitter (scripted_platform three_ids) all_keys thread_abc
      empty_world
    = (r, emit (EvPostToTwitter thread_abc :: es) empty_world)
    /\ (forall k e, es !! k = Some e ->
          exists t,
            [JStr "a"; JStr "b"; JStr "c"] !! k = Some t
            /\ e = EvCreateTweet t (chain_parent es k)
                     (scripted_platform three_ids
                        (count is_create_tweet (log empty_world) + k) t
                        (chain_parent es k)))
    /\ (forall k, k < 3 ->
        (forall j, j < k -> returned_id es j <> None) ->
        k < length es)
    /\ (r = Some true <-> posted es = [JStr "a"; JStr "b"; JStr "c"]).
Proof.
  destruct (publish_linear_reply_chain (scripted_platform three_ids)
              all_keys thread_abc [JStr "a"; JStr "b"; JStr "c"] empty_world)
    as (r & es & Hrun & _ & Hcalls & _ & Hprogress & _ & Hok & _).
  - apply scripted_ids_truthy. unfold three_ids.
    repeat constructor; by intros tid [= <-].
  - reflexivity.
  - discriminate.
  - exists r, es.
    split_and!; [exact Hrun|exact Hcalls|exact (Hprogress eq_refl)|exact Hok].
Defined.

(** The same run, event by event. *)
Example publish_abc_events :
  post_to_twitter (scripted_platform three_ids) all_keys thread_abc
    empty_world
  = (Some true,
     {| file := None;
        log := [EvPostToTwitter thread_abc;
                EvCreateTweet (JStr "a") None (Some "101");
                EvCreateTweet (JStr "b") (Some "101") (Some "102");
                EvCreateTweet (JStr "c") (Some "102") (Some "103")] |}).
Proof. vm_compute; reflexivity. Qed.

(** On a platform that returns an empty identifier, the truthiness test
    [if last_tweet_id] makes the next segment a top-level post. *)
Example publish_with_empty_id :
  post_to_twitter
    (scripted_platform [Some EmptyString; Some "102"]) all_keys
    (JArr [JStr "a"; JStr "b"]) empty_world
  = (Some true,
     {| file := None;
        log := [EvPostToTwitter (JArr [JStr "a"; JStr "b"]);
                EvCreateTweet (JStr "a") None (Some EmptyString);
                EvCreateTweet (JStr "b") None (Some "102")] |}).
Proof. vm_compute; reflexivity. Qed.

(** ** Whole runs *)

(** The second of three segments fails: one post is live, two were
    attempted, nothing is committed. *)
Example failed_run_events :
  failed_run
  = (Finished,
     {| file := None;
        log := [EvSummarize request2; EvGenerate request2;
                EvPostToTwitter thread_abc;
                EvCreateTweet (JStr "a") None (Some "101");
                EvCreateTweet (JStr "b") (Some "101") None] |}).
Proof. vm_compute; reflexivity. Qed.

Lemma failed_run_commits_nothing :
  failed_run.1 = Finished /\ file failed_run.2 = None
  /\ saves (log failed_run.2) = []
  /\ exists thread segs k t p pre,
       log failed_run.2 = pre ++ [EvCreateTweet t p None]
       /\ EvPostToTwitter thread ∈ pre
       /\ py_iter thread = Some segs /\ segs !! k = Some t
       /\ posted (log failed_run.2) = take k segs
       /\ attempted (log failed_run.2) = take (S k) segs.
Proof.
  apply (failed_publish_commits_nothing json_loads_model
           (scripted_backend [GenResponse (Some thread_abc_text)])
           (scripted_platform second_fails) all_keys today [paper2]
           empty_world failed_run.2 failed_run.1 (log failed_run.2)).
  - unfold failed_run. by destruct (main _ _ _ _ _ _ _).
  - reflexivity.
  - exists (JStr "b"), (Some "101").
    apply list_elem_of_lookup. exists 4. vm_compute. reflexivity.
Defined.



(** A feed whose only entry is already processed: nothing happens. *)
Lemma processed_feed_is_noop :
  (post_id paper2 ∈ load_processed_posts (file paper2_done))
  /\ main json_loads_model
       (scripted_backend [GenResponse (Some thread_abc_text)])
       (scripted_platform three_ids) all_keys today [paper2] paper2_done
     = (Finished, paper2_done).
Proof.
  assert (post_id paper2 ∈ load_processed_posts (file paper2_done)) as Hin.
  { apply (bool_decide_unpack _). vm_compute. exact I. }
  split; [exact Hin|].
  destruct (processed_items_never_reselected json_loads_model
              (scripted_backend [GenResponse (Some thread_abc_text)])
              (scripted_platform three_ids) all_keys today)
    as (_ & Hnoop & _).
  apply (Hnoop [paper2] paper2_done).
  intros p Hp. apply list_elem_of_singleton in Hp as ->. exact Hin.
Defined.

(** An object without a thread: the entry is committed, nothing is
    published. *)
Lemma no_thread_run_commits :
  for_posts json_loads_model
    (scripted_backend [GenResponse (Some no_thread_text)])
    (scripted_platform three_ids) all_keys today ∅ [paper2; paper3]
    empty_world
  = (Finished,
     save_processed_post (post_id paper2)
       {| file := None;
          log := [EvSummarize request2; EvGenerate request2] |}).
Proof.
  destruct (missing_thread_is_committed json_loads_model
              (scripted_backend [GenResponse (Some no_thread_text)])
              (scripted_platform three_ids) all_keys today ∅ paper2 [paper3]
              empty_world
              {| file := None;
                 log := [EvSummarize request2; EvGenerate request2] |}
              [("summary", JStr "x")])
    as [Hrun _].
  - apply not_elem_of_empty.
  - reflexivity.
  - vm_compute; reflexivity.
  - reflexivity.
  - reflexivity.
  - exact Hrun.
Defined.

(** The same run, event by event. *)
Example no_thread_run_events :
  for_posts json_loads_model
    (scripted_backend [GenResponse (Some no_thread_text)])
    (scripted_platform three_ids) all_keys today ∅ [paper2; paper3]
    empty_world
  = (Finished,
     {| file := Some ("urn:paper:2" +:+ String LF EmptyString);
        log := [EvSummarize request2; EvGenerate request2;
                EvSave "urn:paper:2"] |}).
Proof. vm_compute; reflexivity. Qed.

(** An empty object is falsy: [main] takes it for a failed synthesis and
    goes on to the next entry without a commit. *)
Example empty_object_is_no_result :
  for_posts json_loads_model
    (scripted_backend [GenResponse (Some "{}")])
    (scripted_platform three_ids) all_keys today ∅ [paper2]
    empty_world
  = (Finished,
     {| file := None;
        log := [EvSummarize request2; EvGenerate request2] |}).
Proof. vm_compute; reflexivity. Qed.

(** The synthesizer succeeds with the empty object, which has no
    [twitter_thread]; [main] does not commit the entry but passes it
    over, and goes on to publish and commit the next one. *)
Lemma empty_object_not_committed :
  summarize_with_gemini json_loads_model
    (scripted_backend empty_object_first) request2 empty_world
  = (JObj [],
     {| file := None; log := [EvSummarize request2; EvGenerate request2] |})
  /\ dict_get "twitter_thread" [] = JNull
  /\ main json_loads_model
       (scripted_backend empty_object_first)
       (scripted_platform three_ids) all_keys today [paper2; paper3]
       empty_world
     = (Finished,
        {| file := Some (post_id paper3 +:+ String LF EmptyString);
           log := [EvSummarize request2; EvGenerate request2;
                   EvSummarize (request_of paper3 today);
                   EvGenerate (request_of paper3 today);
                   EvPostToTwitter thread_abc;
                   EvCreateTweet (JStr "a") None (Some "101");
                   EvCreateTweet (JStr "b") (Some "101") (Some "102");
                   EvCreateTweet (JStr "c") (Some "102") (Some "103");
                   EvSave (post_id paper3)] |}).
Proof. split_and!; vm_compute; reflexivity. Qed.

(** A valid object after prose with braces of its own: the slice runs
    from the brace of the prose, does not parse, and after three such
    answers the synthesizer returns nothing. *)
Lemma brace_in_prose_hides_object :
  json_loads_model thread_abc_text
  = Some (JObj [("twitter_thread", thread_abc)])
  /\ attempt_once json_loads_model (GenResponse (Some braced_prose_text))
     = Excepted
  /\ summarize_with_gemini json_loads_model
       (scripted_backend [GenResponse (Some braced_prose_text);
                          GenResponse (Some braced_prose_text);
                          GenResponse (Some braced_prose_text)])
       request2 empty_world
     = (JNull,
        {| file := None;
           log := [EvSummarize request2;
                   EvGenerate request2; EvSleep 2;
                   EvGenerate request2; EvSleep 2;
                   EvGenerate request2] |}).
Proof. split_and!; vm_compute; reflexivity. Qed.

(** * Further properties *)

(** ** Processed-set store *)

(** A commit adds the stripped identifier to the set, whatever the
    identifier's ends look like. *)
Lemma load_after_append (file : option string) (url : string) :
  complete_lines file ->
  contains url LF = false -> contains url CR = false ->
  load_processed_posts (append_line file url)
  = load_processed_posts file ∪ {[strip url]}.
Proof.
  intros Hfile Hlf Hcr. unfold append_line, load_processed_posts.
  set (line := url +:+ String LF EmptyString).
  assert (universal_newlines line = line) as Hline.
  { apply universal_newlines_id. unfold line.
    rewrite contains_append, Hcr. done. }
  assert (strip line = strip url) as Hsl by apply strip_line.
  destruct file as [text|]; simpl.
  - specialize (Hfile text eq_refl).
    rewrite universal_newlines_append, Hline by done.
    unfold line. rewrite readlines_append_line; [..|done].
    + fold line. rewrite fmap_app, list_to_set_app_L. simpl.
      by rewrite Hsl, (right_id_L ∅ (∪)).
    + by apply universal_newlines_terminated_aux.
  - rewrite Hline. unfold line. rewrite readlines_line by done.
    fold line. simpl.
    by rewrite Hsl, (right_id_L ∅ (∪)), (left_id_L ∅ (∪)).
Qed.

Lemma append_line_complete (file : option string) (url : string) :
  complete_lines (append_line file url).
Proof.
  intros text Htext.
  destruct (append_line_terminated file url) as (text' & Heq & Hnt).
  congruence.
Qed.

Lemma save_all_file (urls : list string) (w : world) :
  complete_lines (file w) -> complete_lines (file (save_all urls w)).
Proof.
  revert w. induction urls as [|url urls IH]; intros w Hw; [done|].
  change (save_all (url :: urls) w)
    with (save_all urls (save_processed_post url w)).
  apply IH. apply append_line_complete.
Qed.

(** X1. Round trip over any number of commits: starting from a file of
    complete lines (or none), after committing a list of plain
    identifiers, repeats included, the loaded set is the old set plus
    exactly these identifiers. A second commit of an identifier changes
    nothing in the set. *)
Theorem commits_then_load (urls : list string) (w : world) :
  complete_lines (file w) ->
  Forall plain_id urls ->
  load_processed_posts (file (save_all urls w))
  = load_processed_posts (file w) ∪ list_to_set urls.
Proof.
  revert w. induction urls as [|url urls IH]; intros w Hw Hall.
  - simpl. by rewrite (right_id_L ∅ (∪)).
  - apply Forall_cons in Hall as [(Hlf & Hcr & Hstrip) Hall].
    change (save_all (url :: urls) w)
      with (save_all urls (save_processed_post url w)).
    change (list_to_set (url :: urls) : gset string)
      with ({[url]} ∪ list_to_set urls : gset string).
    rewrite IH; [|apply append_line_complete|done].
    change (file (save_processed_post url w))
      with (append_line (file w) url).
    rewrite load_after_append, Hstrip by done.
    by rewrite (assoc_L (∪)).
Qed.

Lemma rstrip_idem (s : string) : rstrip (rstrip s) = rstrip s.
Proof.
  induction s as [|a s IH]; [done|]. simpl.
  destruct (rstrip s) as [|b r] eqn:E.
  - destruct (isspace a) eqn:Ha; [done|]. simpl. by rewrite Ha.
  - change (rstrip (String a (String b r))) with
      match rstrip (String b r) with
      | EmptyString =>
          if isspace a then EmptyString else String a EmptyString
      | r' => String a r'
      end.
    by rewrite IH.
Qed.

Lemma rstrip_lstrip_fixed (s : string) :
  rstrip s = s -> rstrip (lstrip s) = lstrip s.
Proof.
  induction s as [|a s IH]; [done|]. intros Hfix. simpl.
  destruct (isspace a) eqn:Ha; [|done].
  apply IH. simpl in Hfix.
  destruct (rstrip s) as [|b r] eqn:E.
  - rewrite Ha in Hfix. done.
  - by injection Hfix.
Qed.

Lemma lstrip_idem (s : string) : lstrip (lstrip s) = lstrip s.
Proof.
  induction s as [|a s IH]; [done|]. simpl.
  destruct (isspace a) eqn:Ha; [done|]. simpl. by rewrite Ha.
Qed.

Lemma strip_idem (s : string) : strip (strip s) = strip s.
Proof.
  unfold strip.
  rewrite (rstrip_lstrip_fixed (rstrip s)) by apply rstrip_idem.
  apply lstrip_idem.
Qed.

(** X2. Every member of a loaded set equals its own stripped form. So an
    identifier with a blank at either end is never a member, whatever the
    file holds, not even right after it was committed: the membership
    test of [main] cannot recognise it. *)
Theorem loaded_ids_are_stripped :
  (forall file x, x ∈ load_processed_posts file -> strip x = x)
  /\ (forall url w,
        strip url <> url ->
        (url ∉ load_processed_posts (file w))
        /\ (url ∉ load_processed_posts
                    (file (save_processed_post url w)))).
Proof.
  assert (forall file x, x ∈ load_processed_posts file -> strip x = x)
    as Hmem.
  { intros [text|] x; simpl.
    - intros Hx. apply elem_of_list_to_set in Hx.
      apply list_elem_of_fmap in Hx as (line & -> & _). apply strip_idem.
    - intros Hx. by apply not_elem_of_empty in Hx. }
  split; [done|].
  intros url w Hne. split; intros Hin; by apply Hmem in Hin.
Qed.

(** ** Thread synthesizer *)

Lemma find_from_absent (s : string) (c : ascii) (i : Z) :
  contains s c = false -> find_from c s i = (-1)%Z.
Proof.
  revert i. induction s as [|a s IH]; intros i; simpl; [done|].
  intros [-> Hs]%orb_false_elim. by apply IH.
Qed.

Lemma substring_none (n : nat) (s : string) :
  String.substring n 0 s = EmptyString.
Proof.
  revert n. induction s as [|a s IH]; intros [|n]; simpl; try done.
Qed.

Lemma slice_backwards (s : string) (lo hi : Z) :
  (0 <= hi <= lo)%Z -> slice s lo hi = EmptyString.
Proof.
  intros H. unfold slice, slice_bound.
  destruct (Z.ltb_spec lo 0); [lia|]. destruct (Z.ltb_spec hi 0); [lia|].
  replace (Z.to_nat (Z.min hi _ - Z.min lo _)) with 0 by lia.
  apply substring_none.
Qed.

Section Synthesizer_further.

Variable json_loads : string -> option json.
Variable backend : nat -> request -> gen_result.

Local Abbreviation attempt_once := (attempt_once json_loads).
Local Abbreviation attempts := (attempts json_loads backend).
Local Abbreviation summarize_with_gemini :=
  (summarize_with_gemini json_loads backend).
Local Abbreviation reached n rq j :=
  (forall k u, k < j -> attempt_once (backend (n + k) rq) <> Returned u).

(** A loop over a non-empty range starts with a backend call. *)
Lemma attempts_head (range : list nat) (n : nat) (rq : request) :
  range <> [] ->
  exists es, (attempts range n rq).2 = EvGenerate rq :: es.
Proof.
  destruct range as [|i rest]; [done|]. intros _. simpl.
  destruct (attempt_once (backend n rq)); [by eexists|..];
    destruct (attempts rest (S n) rq); by eexists.
Qed.

(** After an attempt that ended in a [continue] come the remaining
    attempts, with nothing in between. *)
Lemma attempts_continued (range : list nat) (n : nat) (rq : request)
  (j i : nat) :
  range !! j = Some i -> reached n rq j ->
  attempt_once (backend (n + j) rq) = Continued ->
  exists pre,
    (attempts range n rq).2
    = pre ++ EvGenerate rq
          :: (attempts (drop (S j) range) (n + S j) rq).2
    /\ count is_generate pre = j.
Proof.
  revert n j. induction range as [|i0 rest IH]; intros n j; [done|].
  destruct j as [|j]; simpl.
  - intros [= ->] _. rewrite Nat.add_0_r, Nat.add_1_r. intros ->.
    exists []. rewrite drop_0.
    by destruct (attempts rest (S n) rq).
  - intros Hi Hreach Hcont. rewrite !Nat.add_succ_r in *.
    destruct (IH (S n) j Hi) as (pre & Heq & Hc); [|done|].
    { intros k u Hk. specialize (Hreach (S k) u).
      rewrite Nat.add_succ_r in Hreach. apply Hreach. lia. }
    simpl in Heq. rewrite !Nat.add_succ_r in Heq.
    pose proof (Hreach 0) as H0. rewrite Nat.add_0_r in H0.
    destruct (attempt_once (backend n rq)) as [u| |] eqn:E.
    + exfalso. apply (H0 u); [lia | done].
    + destruct (attempts rest (S n) rq) as [v' es']. simpl in *.
      exists (EvGenerate rq :: pre). simpl. by rewrite Heq, Hc.
    + destruct (attempts rest (S n) rq) as [v' es']. simpl in *.
      exists (EvGenerate rq :: backoff i0 ++ pre). simpl.
      rewrite Heq, count_app, Hc, <- app_assoc. split; [done|].
      unfold backoff. by destruct (i0 <? 2).
Qed.

Lemma attempts_no_exception (range : list nat) (n : nat) (rq : request) :
  (forall j, j < length range ->
     attempt_once (backend (n + j) rq) <> Excepted) ->
  count is_sleep (attempts range n rq).2 = 0.
Proof.
  revert n. induction range as [|i rest IH]; intros n Hno; [done|].
  simpl. pose proof (Hno 0) as H0. rewrite Nat.add_0_r in H0.
  assert (count is_sleep (attempts rest (S n) rq).2 = 0) as Hrest.
  { apply IH. intros j Hj. specialize (Hno (S j)).
    rewrite Nat.add_succ_r in Hno. apply Hno. simpl. lia. }
  destruct (attempt_once (backend n rq)); [done|..].
  - by destruct (attempts rest (S n) rq).
  - exfalso. apply H0; [simpl; lia | done].
Qed.

(** X3. An attempt that ends in one of the two [continue] statements
    (no text in the response, or a brace missing) is followed by no
    delay: when it is the first or second attempt, the very next event is
    the next backend call, and when it is the third, the call ends with
    [None]. A call none of whose attempts ends in an exception never
    sleeps. *)
Theorem soft_failure_retries_at_once (rq : request) (w : world)
  (v : json) (w' : world) :
  summarize_with_gemini rq w = (v, w') ->
  let n := count is_generate (log w) in
  let G := EvGenerate rq in
  exists es,
    w' = emit (EvSummarize rq :: es) w
    /\ (forall j, j < 2 -> reached n rq j ->
          attempt_once (backend (n + j) rq) = Continued ->
          exists pre post,
            es = pre ++ G :: G :: post /\ count is_generate pre = j)
    /\ (reached n rq 2 ->
          attempt_once (backend (n + 2) rq) = Continued ->
          v = JNull
          /\ exists pre, es = pre ++ [G] /\ count is_generate pre = 2)
    /\ ((forall j, j < 3 ->
           attempt_once (backend (n + j) rq) <> Excepted) ->
        count is_sleep es = 0).
Proof.
  intros Hrun n G. unfold summarize_with_gemini in Hrun. fold n in Hrun.
  destruct (attempts (seq 0 3) n rq) as [v0 es] eqn:Hat.
  injection Hrun as <- <-. exists es. split_and!; [done|..].
  - intros j Hj Hreach Hcont.
    destruct (attempts_continued (seq 0 3) n rq j j) as (pre & Heq & Hc);
      [by destruct j as [|[|]]; try lia|done..|].
    rewrite Hat in Heq. change ((v0, es).2) with es in Heq.
    destruct (attempts_head (drop (S j) (seq 0 3)) (n + S j) rq)
      as (post & Hpost).
    { by destruct j as [|[|]]; try lia. }
    exists pre, post. by rewrite Heq, Hpost.
  - intros Hreach Hcont.
    destruct (attempts_continued (seq 0 3) n rq 2 2) as (pre & Heq & Hc);
      [done..|].
    rewrite Hat in Heq. simpl in Heq.
    destruct (attempts_result json_loads backend _ _ _ _ _ Hat)
      as [(j & pre' & Hj & Hreach' & Hret & _)|(-> & _)].
    + exfalso. simpl in Hj.
      destruct (decide (j = 2)) as [->|]; [congruence|].
      apply (Hreach j v0); [lia | done].
    + split; [done|]. by exists pre.
  - intros Hno.
    pose proof (attempts_no_exception (seq 0 3) n rq Hno) as H.
    by rewrite Hat in H.
Qed.

(** X4. A response text that lacks [{] or lacks [}] ends the attempt in a
    [continue], whatever the parser would say: nothing is parsed. *)
Theorem missing_brace_is_soft_failure (text : string) :
  contains text LBRACE = false \/ contains text RBRACE = false ->
  attempt_once (GenResponse (Some text)) = Continued.
Proof.
  intros Hmiss. unfold attempt_once.
  destruct (opt_truthy (Some text)); [|done]. simpl negb. cbv iota.
  simpl default. unfold find, rfind.
  destruct Hmiss as [H|H].
  - by rewrite find_from_absent.
  - rewrite (rfind_from_absent _ _ _ H). simpl. by rewrite orb_true_r.
Qed.

(** X5. When the last [}] of the text stands before its first [{], both
    are found, the slice between them is empty, and it is the empty
    string that goes to the parser. *)
Theorem closing_before_opening (a b c : string) :
  contains a LBRACE = false -> contains b LBRACE = false ->
  contains b RBRACE = false -> contains c RBRACE = false ->
  let text := a +:+ String RBRACE (b +:+ String LBRACE c) in
  find text LBRACE <> (-1)%Z /\ rfind text RBRACE <> (-1)%Z
  /\ slice text (find text LBRACE) (rfind text RBRACE + 1) = EmptyString
  /\ attempt_once (GenResponse (Some text))
     = match json_loads EmptyString with
       | Some v => Returned v
       | None => Excepted
       end.
Proof.
  intros Ha Hb1 Hb2 Hc text.
  assert (find text LBRACE
          = Z.of_nat (String.length a + 1 + String.length b)) as Hf.
  { unfold find, text.
    replace (a +:+ String RBRACE (b +:+ String LBRACE c))
      with ((a +:+ String RBRACE b) +:+ String LBRACE c)
      by (by rewrite append_assoc).
    rewrite find_from_first.
    - rewrite length_append. simpl. lia.
    - rewrite contains_append, Ha. simpl. by rewrite Hb1. }
  assert (rfind text RBRACE = Z.of_nat (String.length a)) as Hr.
  { unfold rfind, text. rewrite rfind_from_last; [lia|lia|].
    rewrite contains_append, Hb2. simpl. by rewrite Hc. }
  assert (slice text (find text LBRACE) (rfind text RBRACE + 1)
          = EmptyString) as Hs.
  { apply slice_backwards. lia. }
  split_and!; [lia|lia|done|].
  unfold attempt_once.
  assert (opt_truthy (Some text) = true) as -> by (subst text; by destruct a).
  simpl negb. cbv iota. simpl default. rewrite Hs, Hf, Hr.
  destruct (Z.eqb_spec (Z.of_nat (String.length a + 1 + String.length b))
              (-1)); [lia|].
  by destruct (Z.eqb_spec (Z.of_nat (String.length a)) (-1)); [lia|].
Qed.

End Synthesizer_further.

(** ** Thread publisher *)

Lemma length_chars (s : string) : length (chars s) = String.length s.
Proof. induction s as [|a s IH]; simpl; [done | by rewrite IH]. Qed.

Section Publisher_further.

Variable platform : nat -> json -> option string -> option string.

Local Abbreviation post_loop := (post_loop platform).
Local Abbreviation post_to_twitter := (post_to_twitter platform).

Lemma post_loop_accepted (segs : list json) (last : option string)
  (n : nat) :
  (forall i t p, platform i t p <> None) ->
  exists es, post_loop segs last n = (true, es).
Proof.
  intros Hacc. revert last n.
  induction segs as [|t rest IH]; intros last n; simpl; [by eexists|].
  destruct (platform n t _) as [tid|] eqn:Hcall; [|by apply Hacc in Hcall].
  destruct (IH (Some tid) (S n)) as (es & ->). by eexists.
Qed.

(** X6. A thread that arrives as a JSON string instead of a list is
    iterated character by character: on a platform that accepts every
    post, with the credentials set, [post_to_twitter] posts one tweet per
    character of the string, in order, and reports [True]. *)
Theorem string_thread_posts_characters (cfg : config) (s : string)
  (w : world) :
  (forall i t p, platform i t p <> None) ->
  credentials_set cfg = true ->
  exists es,
    post_to_twitter cfg (JStr s) w
    = (Some true, emit (EvPostToTwitter (JStr s) :: es) w)
    /\ posted es = chars s
    /\ length es = String.length s.
Proof.
  intros Hacc Hcreds. unfold post_to_twitter. rewrite Hcreds. simpl.
  destruct (post_loop_accepted (chars s) None
              (count is_create_tweet (log w)) Hacc) as (es & Hloop).
  rewrite Hloop. exists es.
  destruct (post_loop_success _ _ _ _ _ Hloop) as (Hp & _ & Hl & _).
  rewrite emit_emit, Hl, length_chars. by split_and!.
Qed.

End Publisher_further.

(** ** Orchestrator *)

Lemma substring_skip (pre s : string) (n : nat) :
  String.substring (String.length pre) n (pre +:+ s) = String.substring 0 n s.
Proof. induction pre as [|a pre IH]; simpl; [done | apply IH]. Qed.

(** A slice that starts where [find] found [c] is empty or starts with
    [c]. *)
Lemma slice_from_find (text : string) (c : ascii) (hi : Z) :
  find text c <> (-1)%Z ->
  slice text (find text c) hi = EmptyString
  \/ exists r, slice text (find text c) hi = String c r.
Proof.
  intros Hfound.
  destruct (contains text c) eqn:Hc.
  2:{ exfalso. apply Hfound. by apply find_from_absent. }
  destruct (split_first text c Hc) as (pre & r & -> & Hpre).
  unfold find. rewrite find_from_first by done.
  unfold slice. rewrite length_append. simpl String.length.
  set (len := Z.of_nat (String.length pre + S (String.length r))).
  assert (slice_bound len (0 + Z.of_nat (String.length pre))
          = Z.of_nat (String.length pre)) as ->.
  { unfold slice_bound, len.
    destruct (Z.ltb_spec (0 + Z.of_nat (String.length pre)) 0); lia. }
  rewrite Nat2Z.id, substring_skip.
  destruct (Z.to_nat _) as [|k]; simpl; [by left | right; by eexists].
Qed.

Section Orchestrator_further.

Variable json_loads : string -> option json.
Variable backend : nat -> request -> gen_result.
Variable platform : nat -> json -> option string -> option string.

Local Abbreviation summarize_with_gemini :=
  (summarize_with_gemini json_loads backend).
Local Abbreviation post_to_twitter := (post_to_twitter platform).
Local Abbreviation for_body := (for_body json_loads backend platform).
Local Abbreviation for_posts := (for_posts json_loads backend platform).
Local Abbreviation main := (main json_loads backend platform).
Local Abbreviation synth_only :=
  (Forall (fun e : event => is_synth e = true)).

(** The shape of a run of [main]. *)
Lemma main_shape (cfg : config) (today_date : string) (posts : list post)
  (w : world) :
  exists (quiet fin : list event) (committed : bool) (url : string),
    synth_only quiet
    /\ log (main cfg today_date posts w).2 = log w ++ quiet ++ fin
    /\ file (main cfg today_date posts w).2
       = (if committed then append_line (file w) url else file w)
    /\ ((fin = [] /\ committed = false)
        \/ ((main cfg today_date posts w).1 = Finished
            /\ final_events platform cfg (count is_create_tweet (log w)) url
                 fin committed
            /\ exists p, p ∈ posts /\ url = post_id p
                         /\ post_id p ∉ load_processed_posts (file w))).
Proof.
  unfold main. destruct (negb _); simpl.
  { exists [], [], false, EmptyString. rewrite !app_nil_r.
    split_and!; try done. by left. }
  destruct (for_posts _ _ _ _ _) as [out w'] eqn:Hrun.
  apply (for_posts_shape json_loads backend platform) in Hrun. exact Hrun.
Qed.

Lemma tweets_of_loop (segs : list json) (n : nat) (ok : bool)
  (tw : list event) :
  post_loop platform segs None n = (ok, tw) ->
  saves tw = [] /\ count is_publish tw = 0 /\ count is_generate tw = 0
  /\ count is_sleep tw = 0.
Proof.
  intros Hloop. apply only_tweets_silent.
  pose proof (post_loop_only_tweets platform segs None n) as H.
  by rewrite Hloop in H.
Qed.

Lemma synth_no_publish (es : list event) (thread : json) :
  synth_only es -> EvPostToTwitter thread ∉ es.
Proof.
  intros Hes Hin. rewrite Forall_forall in Hes. by apply Hes in Hin.
Qed.

(** X7. Without the four Twitter credentials a run never calls
    [create_tweet]; and when it got as far as calling [post_to_twitter],
    it commits nothing and leaves the file as it was. *)
Theorem missing_credentials_post_nothing (cfg : config)
  (today_date : string) (posts : list post) (w : world) :
  credentials_set cfg = false ->
  exists es,
    log (main cfg today_date posts w).2 = log w ++ es
    /\ attempted es = []
    /\ (forall thread,
          EvPostToTwitter thread ∈ es ->
          saves es = []
          /\ file (main cfg today_date posts w).2 = file w).
Proof.
  intros Hcreds.
  destruct (main_shape cfg today_date posts w)
    as (quiet & fin & committed & url & Hq & Hlog & Hfile & Hend).
  exists (quiet ++ fin). split; [done|].
  destruct (synth_silent quiet Hq) as (_ & Hqa & Hqs & _).
  rewrite attempted_app, saves_app, Hqa, Hqs. simpl.
  destruct Hend as [[-> ->]|(_ & Hfin & _)].
  { split; [done|]. intros thread Hin. rewrite app_nil_r in Hin.
    by apply synth_no_publish in Hin. }
  destruct Hfin as [|thread _| | |]; try congruence.
  - split; [done|]. intros thread Hin.
    apply elem_of_app in Hin as [Hin|Hin];
      [by apply synth_no_publish in Hin|].
    apply elem_of_cons in Hin as [?|Hin]; [done|].
    by apply elem_of_nil in Hin.
  - by split.
Qed.

(** X8. A run calls [post_to_twitter] at most once. And a commit means
    the work is complete: the run that commits an identifier either never
    called [post_to_twitter] (the result had no thread), or called it
    once and every segment of that thread was posted, none failing. *)
Theorem commit_means_thread_complete (cfg : config) (today_date : string)
  (posts : list post) (w : world) :
  exists es,
    log (main cfg today_date posts w).2 = log w ++ es
    /\ count is_publish es <= 1
    /\ (forall url,
          url ∈ saves es ->
          (count is_publish es = 0 /\ attempted es = [])
          \/ exists thread segs,
               EvPostToTwitter thread ∈ es
               /\ py_iter thread = Some segs
               /\ posted es = segs /\ attempted es = segs).
Proof.
  destruct (main_shape cfg today_date posts w)
    as (quiet & fin & committed & url & Hq & Hlog & Hfile & Hend).
  exists (quiet ++ fin). split; [done|].
  destruct (synth_silent quiet Hq) as (Hqp & Hqa & Hqs & _ & Hqc).
  rewrite count_app, saves_app, posted_app, attempted_app.
  rewrite Hqp, Hqa, Hqs, Hqc. simpl.
  destruct Hend as [[-> ->]|(_ & Hfin & _)].
  { split; [simpl; lia|]. intros u Hu. by apply elem_of_nil in Hu. }
  destruct Hfin as [|thread _|thread _ _|thread segs tw _ Hiter Hloop
                   |thread segs tw _ Hiter Hloop]; simpl.
  - split; [lia|]. intros u _. by left.
  - split; [lia|]. intros u Hu. by apply elem_of_nil in Hu.
  - split; [lia|]. intros u Hu. by apply elem_of_nil in Hu.
  - destruct (tweets_of_loop _ _ _ _ Hloop) as (Hts & Htp & _).
    destruct (post_loop_success _ _ _ _ _ Hloop) as (Hp & Ha & _).
    rewrite count_app, posted_app, attempted_app, Htp, Hp, Ha. simpl.
    rewrite !app_nil_r. split; [lia|]. intros u _. right.
    exists thread, segs. split_and!; try done.
    apply elem_of_app. right. by apply elem_of_cons; left.
  - destruct (tweets_of_loop _ _ _ _ Hloop) as (Hts & Htp & _).
    rewrite Htp, Hts. split; [lia|].
    intros u Hu. by apply elem_of_nil in Hu.
Qed.

(** X9. A run keeps processed_posts.txt made of complete lines: when the
    file is absent or every line of it ends in LF before the run, the
    same holds after it. *)
Theorem main_keeps_lines_complete (cfg : config) (today_date : string)
  (posts : list post) (w : world) :
  complete_lines (file w) ->
  complete_lines (file (main cfg today_date posts w).2).
Proof.
  intros Hw.
  destruct (main_shape cfg today_date posts w)
    as (quiet & fin & committed & url & _ & _ & -> & _).
  destruct committed; [apply append_line_complete | done].
Qed.

(** With a parser that gives objects for texts that start with [{] and
    rejects the empty text, the synthesizer returns an object or [None]. *)
Lemma summarize_object_or_none (rq : request) (w : world) :
  (forall s v, json_loads (String LBRACE s) = Some v ->
               exists items, v = JObj items) ->
  json_loads EmptyString = None ->
  (summarize_with_gemini rq w).1 = JNull
  \/ exists items, (summarize_with_gemini rq w).1 = JObj items.
Proof.
  intros Hobj Hempty.
  destruct (summarize_emits json_loads backend rq w)
    as (v & es & -> & Hat & _). simpl.
  destruct (attempts_result json_loads backend _ _ _ _ _ Hat)
    as [(j & pre & _ & _ & Hret & _)|(-> & _)]; [|by left].
  apply attempt_once_Returned in Hret as (text & _ & _ & Hf & _ & Hparse).
  destruct (slice_from_find text LBRACE (rfind text RBRACE + 1) Hf)
    as [Hs|(r & Hs)]; rewrite Hs in Hparse.
  - congruence.
  - right. by apply Hobj in Hparse.
Qed.

(** X10. What [summarize_with_gemini] can return: with a parser that,
    like [json.loads], gives an object for every text that starts with
    [{] and raises on the empty text, the result is [None] or an object,
    whatever the backend answers; and a result that passes
    [if not social_posts] is an object with at least one key, so the
    [get] that follows in [main] is called on a dict. *)
Theorem summarize_returns_dict_or_none (rq : request) (w : world) :
  (forall s v, json_loads (String LBRACE s) = Some v ->
               exists items, v = JObj items) ->
  json_loads EmptyString = None ->
  ((summarize_with_gemini rq w).1 = JNull
   \/ exists items, (summarize_with_gemini rq w).1 = JObj items)
  /\ (py_truthy (summarize_with_gemini rq w).1 = true ->
      exists kv items, (summarize_with_gemini rq w).1 = JObj (kv :: items)).
Proof.
  intros Hobj Hempty.
  pose proof (summarize_object_or_none rq w Hobj Hempty) as Hv.
  split; [exact Hv|].
  destruct Hv as [->|(items & ->)]; [done|].
  destruct items as [|kv items]; [done|]. intros _. by exists kv, items.
Qed.

Local Ltac close_cost :=
  split_and!;
  [simpl; by rewrite <- ?app_assoc | rewrite ?count_app; simpl; lia ..].

(** What one pass through the loop body costs. *)
Lemma for_body_cost (cfg : config) (today_date : string)
  (processed : gset string) (p : post) (w w' : world) (c : control) :
  for_body cfg today_date processed p w = (c, w') ->
  exists es,
    log w' = log w ++ es
    /\ count is_generate es <= 3 /\ count is_sleep es <= 2.
Proof.
  unfold for_body. intros Hrun.
  assert (exists es, log w = log w ++ es /\ count is_generate es <= 3
                     /\ count is_sleep es <= 2) as Hnone.
  { exists []. rewrite app_nil_r. split_and!; [done|simpl; lia..]. }
  destruct (bool_decide _); [by injection Hrun as <- <-|].
  destruct (opt_truthy (summary p)); simpl in Hrun;
    [|by injection Hrun as <- <-].
  destruct (summarize_emits json_loads backend (request_of p today_date) w)
    as (v & es & Heq & Hat & Hsynth).
  rewrite Heq in Hrun.
  assert (count is_generate es <= 3 /\ count is_sleep es <= 2)
    as [Hgen Hsleep].
  { split.
    - destruct (attempts_result json_loads backend _ _ _ _ _ Hat)
        as [(j & pre & Hj & _ & _ & -> & Hc)|(_ & _ & ->)]; [|done].
      rewrite count_app, Hc. simpl in *. lia.
    - pose proof (attempts3_sleeps json_loads backend
                    (count is_generate (log w)) (request_of p today_date))
        as Hsl.
      rewrite Hat in Hsl. apply Hsl. }
  set (es0 := EvSummarize (request_of p today_date) :: es) in *.
  assert (count is_generate es0 <= 3 /\ count is_sleep es0 <= 2)
    as [Hgen0 Hsleep0] by done.
  destruct (py_truthy v); simpl in Hrun.
  2:{ injection Hrun as <- <-. by exists es0. }
  destruct v as [| | | | | |items];
    try (injection Hrun as <- <-; by exists es0).
  destruct (py_truthy (dict_get _ _)).
  2:{ injection Hrun as <- <-. exists (es0 ++ [EvSave (post_id p)]).
      close_cost. }
  unfold post_to_twitter in Hrun.
  destruct (credentials_set cfg); simpl in Hrun.
  2:{ injection Hrun as <- <-. eexists (es0 ++ [_]). close_cost. }
  destruct (py_iter _) as [segs|].
  2:{ injection Hrun as <- <-. eexists (es0 ++ [_]). close_cost. }
  destruct (post_loop platform segs None _) as [ok tw] eqn:Hloop.
  destruct (tweets_of_loop _ _ _ _ Hloop) as (_ & _ & Htg & Hts).
  destruct ok; injection Hrun as <- <-.
  - eexists (es0 ++ [_] ++ tw ++ [_]).
    split_and!; [simpl; by rewrite <- ?app_assoc|..];
      rewrite !count_app, ?Htg, ?Hts; simpl; lia.
  - eexists (es0 ++ [_] ++ tw).
    split_and!; [simpl; by rewrite <- ?app_assoc|..];
      rewrite !count_app, ?Htg, ?Hts; simpl; lia.
Qed.

(** X11. What a run can cost: at most three backend calls and two
    delays for each entry of the feed, whatever the services answer. *)
Theorem run_cost_bound (cfg : config) (today_date : string)
  (posts : list post) (w : world) :
  exists es,
    log (main cfg today_date posts w).2 = log w ++ es
    /\ count is_generate es <= 3 * length posts
    /\ count is_sleep es <= 2 * length posts.
Proof.
  unfold main. destruct (negb _); simpl.
  { exists []. rewrite app_nil_r. split_and!; [done|simpl; lia..]. }
  generalize (load_processed_posts (file w)). intros processed.
  revert w. induction posts as [|p rest IH]; intros w; simpl.
  { exists []. rewrite app_nil_r. split_and!; [done|simpl; lia..]. }
  destruct (for_body cfg today_date processed p w) as [c w1] eqn:Hbody.
  destruct (for_body_cost _ _ _ _ _ _ _ Hbody) as (es & Hlog & Hg & Hs).
  destruct c; simpl.
  - destruct (IH w1) as (es' & Hlog' & Hg' & Hs').
    exists (es ++ es'). rewrite Hlog', Hlog, <- app_assoc, !count_app.
    split_and!; [done|lia..].
  - exists es. split_and!; [done|lia..].
  - exists es. split_and!; [done|lia..].
Qed.

(** X12. An entry whose identifier has a blank at either end is taken up
    again on every run, whatever the file holds (also when a previous run
    committed it): with a summary present, the synthesizer is called for
    it. *)
Theorem padded_id_is_reselected (cfg : config) (today_date : string)
  (p : post) (w : world) (stored : option string) :
  strip (post_id p) <> post_id p ->
  opt_truthy (summary p) = true ->
  exists es,
    log (for_body cfg today_date (load_processed_posts stored) p w).2
    = log w ++ EvSummarize (request_of p today_date) :: es.
Proof.
  intros Hpad Hsum.
  assert (post_id p ∉ load_processed_posts stored) as Hnew.
  { intros Hin. apply Hpad. destruct stored as [text|]; simpl in Hin.
    - apply elem_of_list_to_set in Hin.
      apply list_elem_of_fmap in Hin as (line & -> & _). apply strip_idem.
    - by apply not_elem_of_empty in Hin. }
  unfold for_body. rewrite bool_decide_eq_false_2, Hsum by done. simpl.
  destruct (summarize_emits json_loads backend (request_of p today_date) w)
    as (v & es & -> & _ & _).
  destruct (py_truthy v); simpl; [|by exists es].
  destruct v as [| | | | | |items]; try by exists es.
  destruct (py_truthy (dict_get _ _)).
  2:{ exists (es ++ [EvSave (post_id p)]). simpl.
      by rewrite <- app_assoc. }
  unfold post_to_twitter. destruct (credentials_set cfg); simpl.
  2:{ eexists (es ++ [_]). simpl. by rewrite <- app_assoc. }
  destruct (py_iter _) as [segs|].
  2:{ eexists (es ++ [_]). simpl. by rewrite <- app_assoc. }
  destruct (post_loop platform segs None _) as [[|] tw]; simpl.
  - eexists (es ++ [_] ++ tw ++ [_]). simpl. by rewrite <- !app_assoc.
  - eexists (es ++ [_] ++ tw). simpl. by rewrite <- !app_assoc.
Qed.

(** X13. A truthy [twitter_thread] that cannot be iterated (a number, or
    [true]) is handed to [post_to_twitter], which makes no call; the
    entry is not committed and the run ends. *)
Theorem scalar_thread_is_not_committed (cfg : config) (today_date : string)
  (processed : gset string) (p : post) (rest : list post) (w w1 : world)
  (items : list (string * json)) :
  post_id p ∉ processed ->
  opt_truthy (summary p) = true ->
  summarize_with_gemini (request_of p today_date) w = (JObj items, w1) ->
  py_truthy (dict_get "twitter_thread" items) = true ->
  py_iter (dict_get "twitter_thread" items) = None ->
  for_posts cfg today_date processed (p :: rest) w
  = (Finished, emit [EvPostToTwitter (dict_get "twitter_thread" items)] w1)
  /\ file (emit [EvPostToTwitter (dict_get "twitter_thread" items)] w1)
     = file w.
Proof.
  intros Hnew Hsum Hsynth Htruthy Hiter.
  destruct (summarize_emits json_loads backend (request_of p today_date) w)
    as (v & es & Heq & _ & _).
  rewrite Hsynth in Heq. injection Heq as <- ->.
  split; [|done]. simpl. unfold for_body.
  rewrite bool_decide_eq_false_2, Hsum, Hsynth by done.
  remember (dict_get "twitter_thread" items) as thread eqn:Hth.
  destruct items as [|kv items']; [by subst thread|].
  change (py_truthy (JObj (kv :: items'))) with true.
  simpl negb. cbv iota.
  rewrite Htruthy. unfold post_to_twitter. rewrite Hiter.
  by destruct (credentials_set cfg).
Qed.

End Orchestrator_further.

(** ** From one run to the next *)


(** ** The parser model gives objects for texts that start with a brace *)

Lemma parse_members_object (fuel : nat) (s : string)
  (acc : list (string * json)) (v : json) (rest : string) :
  parse_members fuel s acc = Some (v, rest) -> exists items, v = JObj items.
Proof.
  revert s acc. induction fuel as [|f IH]; intros s acc; simpl; [done|].
  intros H. repeat case_match; simplify_eq; eauto.
Qed.

Lemma json_loads_model_object (s : string) (v : json) :
  json_loads_model (String LBRACE s) = Some v -> exists items, v = JObj items.
Proof.
  unfold json_loads_model.
  destruct (parse_value _ _) as [[v' rest]|] eqn:Hparse; [|done].
  intros Hv. assert (v' = v) as -> by (by repeat case_match; simplify_eq).
  clear Hv. revert Hparse.
  replace (2 * String.length (String LBRACE s) + 2)
    with (S (2 * String.length s + 3)) by (simpl; lia).
  simpl. intros H. repeat case_match; simplify_eq; eauto.
  by eapply parse_members_object.
Qed.

(** ** Further concrete runs *)

Lemma no_file_complete : complete_lines None.
Proof. by intros text. Qed.

Lemma three_commits_loaded :
  Forall plain_id three_commits
  /\ load_processed_posts (file (save_all three_commits empty_world))
     = load_processed_posts (file empty_world) ∪ list_to_set three_commits.
Proof.
  assert (Forall plain_id three_commits) as Hplain.
  { unfold three_commits, plain_id. repeat constructor. }
  split; [exact Hplain|].
  exact (commits_then_load three_commits empty_world no_file_complete Hplain).
Defined.

Lemma padded_id_not_loaded :
  strip (post_id paper4) <> post_id paper4
  /\ (post_id paper4
      ∉ load_processed_posts
          (file (save_processed_post (post_id paper4) empty_world))).
Proof.
  assert (strip (post_id paper4) <> post_id paper4) as Hpad
    by (vm_compute; discriminate).
  split; [exact Hpad|].
  destruct loaded_ids_are_stripped as [_ Hnot].
  exact (proj2 (Hnot (post_id paper4) empty_world Hpad)).
Defined.

Lemma soft_failures_never_sleep :
  exists es,
    (summarize_with_gemini json_loads_model
       (scripted_backend three_soft_failures) request2 empty_world).2
    = emit (EvSummarize request2 :: es) empty_world
    /\ count is_sleep es = 0.
Proof.
  destruct (soft_failure_retries_at_once json_loads_model
              (scripted_backend three_soft_failures) request2 empty_world
              (summarize_with_gemini json_loads_model
                 (scripted_backend three_soft_failures)
                 request2 empty_world).1
              (summarize_with_gemini json_loads_model
                 (scripted_backend three_soft_failures)
                 request2 empty_world).2
              eq_refl)
    as (es & Hw & _ & _ & Hquiet).
  exists es. split; [exact Hw|]. apply Hquiet.
  intros [|[|[|j]]] Hj; [vm_compute; discriminate..|lia].
Defined.

Lemma text_without_braces_continues :
  contains "no braces here" LBRACE = false
  /\ attempt_once json_loads_model (GenResponse (Some "no braces here"))
     = Continued.
Proof.
  split; [reflexivity|].
  apply (missing_brace_is_soft_failure json_loads_model "no braces here").
  left. reflexivity.
Defined.

Lemma reversed_braces_parse_nothing :
  slice "done } and { then"
    (find "done } and { then" LBRACE) (rfind "done } and { then" RBRACE + 1)
  = EmptyString
  /\ attempt_once json_loads_model (GenResponse (Some "done } and { then"))
     = Excepted.
Proof.
  destruct (closing_before_opening json_loads_model "done " " and " " then"
              eq_refl eq_refl eq_refl eq_refl) as (_ & _ & Hs & Hat).
  split; [exact Hs | exact Hat].
Defined.

Lemma string_thread_hey :
  credentials_set all_keys = true
  /\ exists es,
       post_to_twitter accepting_platform all_keys (JStr "hey") empty_world
       = (Some true, emit (EvPostToTwitter (JStr "hey") :: es) empty_world)
       /\ posted es = [JStr "h"; JStr "e"; JStr "y"]
       /\ length es = 3.
Proof.
  split; [reflexivity|].
  apply (string_thread_posts_characters accepting_platform all_keys "hey"
           empty_world); [by intros i t p|reflexivity].
Defined.

Lemma run_without_token_secret :
  credentials_set no_token_secret = false
  /\ exists es,
       log (main json_loads_model
              (scripted_backend [GenResponse (Some thread_abc_text)])
              (scripted_platform three_ids) no_token_secret today
              [paper2] empty_world).2
       = log empty_world ++ es
       /\ attempted es = []
       /\ (forall thread,
             EvPostToTwitter thread ∈ es ->
             saves es = []
             /\ file (main json_loads_model
                        (scripted_backend
                           [GenResponse (Some thread_abc_text)])
                        (scripted_platform three_ids) no_token_secret today
                        [paper2] empty_world).2
                = file empty_world).
Proof.
  split; [reflexivity|].
  exact (missing_credentials_post_nothing json_loads_model
           (scripted_backend [GenResponse (Some thread_abc_text)])
           (scripted_platform three_ids) no_token_secret today [paper2]
           empty_world eq_refl).
Defined.

(** The run without the secret, event by event. *)
Example run_without_token_secret_events :
  main json_loads_model
    (scripted_backend [GenResponse (Some thread_abc_text)])
    (scripted_platform three_ids) no_token_secret today [paper2] empty_world
  = (Finished,
     {| file := None;
        log := [EvSummarize request2; EvGenerate request2;
                EvPostToTwitter thread_abc] |}).
Proof. vm_compute; reflexivity. Qed.

Lemma published_run_is_complete :
  "urn:paper:2" ∈ saves (log published_run.2)
  /\ ((count is_publish (log published_run.2) = 0
       /\ attempted (log published_run.2) = [])
      \/ exists thread segs,
           EvPostToTwitter thread ∈ log published_run.2
           /\ py_iter thread = Some segs
           /\ posted (log published_run.2) = segs
           /\ attempted (log published_run.2) = segs).
Proof.
  assert ("urn:paper:2" ∈ saves (log published_run.2)) as Hin.
  { vm_compute. apply list_elem_of_singleton. reflexivity. }
  split; [exact Hin|].
  destruct (commit_means_thread_complete json_loads_model
              (scripted_backend [GenResponse (Some thread_abc_text)])
              (scripted_platform three_ids) all_keys today [paper2]
              empty_world) as (es & Hlog & _ & Hcommit).
  change (log published_run.2 = es) in Hlog. rewrite Hlog in *.
  exact (Hcommit "urn:paper:2" Hin).
Defined.

Lemma run_keeps_lines_complete :
  complete_lines (file paper2_done)
  /\ complete_lines
       (file (main json_loads_model
                (scripted_backend [GenResponse (Some no_thread_text)])
                (scripted_platform three_ids) all_keys today [paper3]
                paper2_done).2).
Proof.
  assert (complete_lines (file paper2_done)) as Hw
    by (by intros text [= <-]).
  split; [exact Hw|].
  exact (main_keeps_lines_complete json_loads_model
           (scripted_backend [GenResponse (Some no_thread_text)])
           (scripted_platform three_ids) all_keys today [paper3]
           paper2_done Hw).
Defined.

Lemma model_parser_gives_dict_or_none :
  json_loads_model EmptyString = None
  /\ ((summarize_with_gemini json_loads_model
         (scripted_backend [GenResponse (Some number_thread_text)])
         request2 empty_world).1 = JNull
      \/ exists items,
           (summarize_with_gemini json_loads_model
              (scripted_backend [GenResponse (Some number_thread_text)])
              request2 empty_world).1 = JObj items).
Proof.
  split; [reflexivity|].
  exact (proj1 (summarize_returns_dict_or_none json_loads_model
                  (scripted_backend [GenResponse (Some number_thread_text)])
                  request2 empty_world json_loads_model_object eq_refl)).
Defined.

Lemma padded_paper4_is_reselected :
  strip (post_id paper4) <> post_id paper4
  /\ exists es,
       log (for_body json_loads_model
              (scripted_backend [GenResponse (Some no_thread_text)])
              (scripted_platform three_ids) all_keys today
              (load_processed_posts
                 (file (save_processed_post (post_id paper4) empty_world)))
              paper4 empty_world).2
       = log empty_world
         ++ EvSummarize (request_of paper4 today) :: es.
Proof.
  assert (strip (post_id paper4) <> post_id paper4) as Hpad
    by (vm_compute; discriminate).
  split; [exact Hpad|].
  exact (padded_id_is_reselected json_loads_model
           (scripted_backend [GenResponse (Some no_thread_text)])
           (scripted_platform three_ids) all_keys today paper4 empty_world
           (file (save_processed_post (post_id paper4) empty_world))
           Hpad eq_refl).
Defined.

Lemma number_thread_run :
  for_posts json_loads_model
    (scripted_backend [GenResponse (Some number_thread_text)])
    (scripted_platform three_ids) all_keys today ∅ [paper2; paper3]
    empty_world
  = (Finished,
     emit [EvPostToTwitter (dict_get "twitter_thread"
                              [("twitter_thread", JInt 7)])]
       {| file := None;
          log := [EvSummarize request2; EvGenerate request2] |}).
Proof.
  destruct (scalar_thread_is_not_committed json_loads_model
              (scripted_backend [GenResponse (Some number_thread_text)])
              (scripted_platform three_ids) all_keys today ∅ paper2
              [paper3] empty_world
              {| file := None;
                 log := [EvSummarize request2; EvGenerate request2] |}
              [("twitter_thread", JInt 7)]) as [Hrun _].
  - apply not_elem_of_empty.
  - reflexivity.
  - vm_compute; reflexivity.
  - reflexivity.
  - reflexivity.
  - exact Hrun.
Defined.

